(** * Address book and notebook assistant (homework_01.py): a shallow embedding

    The development follows the layout of the Python module: the builtins it
    relies on ([str.lower], [in], [list.remove], insertion-ordered [dict],
    [re], [datetime]), then the classes [Field], [Record], [AddressBook],
    [Notebook] and [Tag], then the properties of each operation.

    Conventions.
    - A Python [str] is a [string]; each character stands for one code point
      in the range 0..255.  On that range [\d] is exactly [0-9] and
      [str.lower] is the map [chr_lower] below.
    - A Python [int] is a [Z].
    - A [dict] is an association list in insertion order, a [set] of ints is
      a [gset Z].
    - Objects that the code compares with [==] without defining [__eq__]
      carry their identity ([oid]), since Python then compares identities.
    - A method that may raise returns [exn + _] or an [outcome], which keeps
      the state of the receiver at the point of the raise. *)

From stdpp Require Import gmap strings list.
From Stdlib Require Import ZArith Ascii String Sorted.

#[local] Set Warnings "-clear-no-such-hyp".

Local Open Scope string_scope.
Local Open Scope list_scope.
Local Open Scope Z_scope.

(** ** Python builtins *)

Inductive exn :=
  | ValueError
  | TypeError
  | AttributeError
  | UnpicklingError.

(** The receiver's state after the call, with the value returned or the
    exception raised. *)
Inductive outcome (S A : Type) :=
  | Returns (st : S) (a : A)
  | Raises (st : S) (e : exn).
Arguments Returns {S A} st a.
Arguments Raises {S A} st e.

Definition state_of {S A} (o : outcome S A) : S :=
  match o with Returns st _ => st | Raises st _ => st end.

Module Str.

Definition code (c : ascii) : Z := Z.of_N (N_of_ascii c).

(** [str.lower] on one code point below 256: the letters A-Z and the
    capital letters of the upper half (0xC0-0xDE without the
    multiplication sign 0xD7) move up by 32. *)
Definition chr_lower (c : ascii) : ascii :=
  let n := code c in
  if (65 <=? n) && (n <=? 90) || (192 <=? n) && (n <=? 222) && negb (n =? 215)
  then ascii_of_N (Z.to_N (n + 32))
  else c.

Fixpoint lower (s : string) : string :=
  match s with
  | EmptyString => EmptyString
  | String c s' => String (chr_lower c) (lower s')
  end.

(** [sub in s] on strings: [sub] occurs in [s] at some position. *)
Fixpoint contains (sub s : string) : bool :=
  String.prefix sub s
  || match s with
     | EmptyString => false
     | String _ s' => contains sub s'
     end.

(** Truthiness of a string. *)
Definition truthy (s : string) : bool :=
  match s with EmptyString => false | _ => true end.

Definition is_digit (c : ascii) : bool := (48 <=? code c) && (code c <=? 57).

Definition digit_val (c : ascii) : Z := code c - 48.

(** [str.isspace] on one code point below 256: tab to carriage return, the
    four separators 0x1C-0x1F, space, NEL (0x85) and the no-break space. *)
Definition is_space (c : ascii) : bool :=
  let n := code c in
  (9 <=? n) && (n <=? 13) || (28 <=? n) && (n <=? 32) || (n =? 133) || (n =? 160).

Fixpoint lstrip (s : string) : string :=
  match s with
  | EmptyString => EmptyString
  | String c s' => if is_space c then lstrip s' else s
  end.

Fixpoint rstrip (s : string) : string :=
  match s with
  | EmptyString => EmptyString
  | String c s' =>
      match rstrip s' with
      | EmptyString => if is_space c then EmptyString else String c EmptyString
      | t => String c t
      end
  end.

(** [s.strip()] *)
Definition strip (s : string) : string := rstrip (lstrip s).

(** [s.split(sep)] for a one-character separator: never an empty list. *)
Fixpoint split (sep : ascii) (s : string) : list string :=
  match s with
  | EmptyString => [EmptyString]
  | String c s' =>
      if bool_decide (c = sep) then EmptyString :: split sep s'
      else match split sep s' with
           | t :: ts => String c t :: ts
           | [] => [String c EmptyString]
           end
  end.

Definition comma : ascii := ascii_of_N 44.

End Str.

(** *** Insertion-ordered dictionaries *)

Section dict.
Context {K V : Type} `{EqDecision K}.

Definition dict_keys (d : list (K * V)) : list K := d.*1.
Definition dict_values (d : list (K * V)) : list V := d.*2.

(** [k in d] *)
Definition dict_contains (d : list (K * V)) (k : K) : bool :=
  bool_decide (k ∈ dict_keys d).

(** [d[k]], [None] for a missing key *)
Fixpoint dict_get (d : list (K * V)) (k : K) : option V :=
  match d with
  | [] => None
  | (k', v) :: d' => if decide (k = k') then Some v else dict_get d' k
  end.

(** [d[k] = v]: an existing key keeps its position, a new key goes last. *)
Fixpoint dict_set (d : list (K * V)) (k : K) (v : V) : list (K * V) :=
  match d with
  | [] => [(k, v)]
  | (k', v') :: d' =>
      if decide (k = k') then (k, v) :: d' else (k', v') :: dict_set d' k v
  end.

(** [del d[k]] for a key that is present *)
Fixpoint dict_del (d : list (K * V)) (k : K) : list (K * V) :=
  match d with
  | [] => []
  | (k', v') :: d' =>
      if decide (k = k') then d' else (k', v') :: dict_del d' k
  end.

(** [d.update(other)] *)
Definition dict_update (d other : list (K * V)) : list (K * V) :=
  foldl (λ acc kv, dict_set acc kv.1 kv.2) d other.

End dict.

(** [min] and [max] of a collection of ints; [None] where Python raises
    [ValueError] on an empty argument. *)
Definition py_min_list (l : list Z) : option Z :=
  match l with
  | [] => None
  | x :: l' => Some (foldr Z.min x l')
  end.

Definition py_max_list (l : list Z) : option Z :=
  match l with
  | [] => None
  | x :: l' => Some (foldr Z.max x l')
  end.

Definition py_min (X : gset Z) : option Z := py_min_list (elements X).

(** *** The regular expression of [PhoneNumber.validate_phone]

    [re.compile(r"^\d{9}$").match(value)]: [match] anchors at the start, so
    [^] holds there; [\d{9}] consumes nine digits; [$], compiled without
    [re.MULTILINE], holds at the end of the string and also just before a
    newline that is the last character of the string. *)

Module Re.

(** [\d{n}] at the head of [s]: the rest of the string after [n] digits. *)
Fixpoint digits (n : nat) (s : string) : option string :=
  match n with
  | O => Some s
  | S n' =>
      match s with
      | String c s' => if Str.is_digit c then digits n' s' else None
      | EmptyString => None
      end
  end.

Definition newline : ascii := ascii_of_N 10.

(** [$] at the position where [rest] remains to be read. *)
Definition dollar (rest : string) : bool :=
  match rest with
  | EmptyString => true
  | String c EmptyString => bool_decide (c = newline)
  | _ => false
  end.

(** [\Z]-like end of input, used by [strptime] ("unconverted data remains"). *)
Definition at_end (rest : string) : bool :=
  match rest with EmptyString => true | _ => false end.

End Re.

(** *** [datetime]: the proleptic Gregorian calendar of the standard library *)

Module datetime.

Record t := mk {
  year : Z; month : Z; day : Z;
  hour : Z; minute : Z; second : Z; microsecond : Z
}.

Definition MINYEAR : Z := 1.
Definition MAXYEAR : Z := 9999.

Definition is_leap (y : Z) : bool :=
  (y mod 4 =? 0) && (negb (y mod 100 =? 0) || (y mod 400 =? 0)).

Definition days_before_year (y : Z) : Z :=
  let p := y - 1 in p * 365 + p / 4 - p / 100 + p / 400.

Definition days_in_month (y m : Z) : Z :=
  if (m =? 2) && is_leap y then 29
  else match m with
       | 1 | 3 | 5 | 7 | 8 | 10 | 12 => 31
       | 4 | 6 | 9 | 11 => 30
       | 2 => 28
       | _ => 0
       end.

Definition days_before_month (y m : Z) : Z :=
  match m with
  | 1 => 0 | 2 => 31 | 3 => 59 | 4 => 90 | 5 => 120 | 6 => 151
  | 7 => 181 | 8 => 212 | 9 => 243 | 10 => 273 | 11 => 304 | 12 => 334
  | _ => 0
  end + (if (2 <? m) && is_leap y then 1 else 0).

Definition ymd2ord (y m d : Z) : Z :=
  days_before_year y + days_before_month y m + d.

Definition toordinal (a : t) : Z := ymd2ord (year a) (month a) (day a).

(** The check every constructor runs on its date fields. *)
Definition check_date_fields (y m d : Z) : bool :=
  (MINYEAR <=? y) && (y <=? MAXYEAR) && (1 <=? m) && (m <=? 12)
  && (1 <=? d) && (d <=? days_in_month y m).

(** [a.replace(year=y)]: a new value, [ValueError] when the day does not
    exist in year [y]. *)
Definition replace_year (a : t) (y : Z) : exn + t :=
  if check_date_fields y (month a) (day a)
  then inr (mk y (month a) (day a) (hour a) (minute a) (second a) (microsecond a))
  else inl ValueError.

(** [a > b]: the tuples of fields, compared lexicographically. *)
Fixpoint lex_gt (xs ys : list Z) : bool :=
  match xs, ys with
  | x :: xs', y :: ys' => (y <? x) || ((x =? y) && lex_gt xs' ys')
  | _ :: _, [] => true
  | [], _ => false
  end.

Definition fields (a : t) : list Z :=
  [year a; month a; day a; hour a; minute a; second a; microsecond a].

Definition gt (a b : t) : bool := lex_gt (fields a) (fields b).

(** [(a - b).days]: [timedelta(days1 - days2, secs1 - secs2, us1 - us2)]
    carries microseconds into seconds and seconds into days with floor
    division, leaving seconds and microseconds non-negative. *)
Definition timedelta_days (days seconds microseconds : Z) : Z :=
  let seconds := seconds + microseconds / 1000000 in
  days + seconds / 86400.

Definition sub_days (a b : t) : Z :=
  let secs (x : t) := second x + minute x * 60 + hour x * 3600 in
  timedelta_days (toordinal a - toordinal b) (secs a - secs b)
                 (microsecond a - microsecond b).

(** [datetime.strptime(s, "%Y-%m-%d")].  The format compiles to
    [(?P<Y>\d\d\d\d)-(?P<m>1[0-2]|0[1-9]|[1-9])-(?P<d>3[0-1]|[1-2]\d|0[1-9]|[1-9]| [1-9])];
    the alternatives are tried in order, the whole input must be consumed,
    and the date must exist. *)
Definition in_range (lo hi : Z) (c : ascii) : bool :=
  (lo <=? Str.code c) && (Str.code c <=? hi).

Definition parse_Y (s : string) : option (Z * string) :=
  match s with
  | String a (String b (String c (String d rest))) =>
      if Str.is_digit a && Str.is_digit b && Str.is_digit c && Str.is_digit d
      then Some (((Str.digit_val a * 10 + Str.digit_val b) * 10
                  + Str.digit_val c) * 10 + Str.digit_val d, rest)
      else None
  | _ => None
  end.

Definition dash (s : string) : option string :=
  match s with
  | String c rest => if Str.code c =? 45 then Some rest else None
  | EmptyString => None
  end.

Definition parse_m (s : string) : option (Z * string) :=
  match s with
  | String a (String b rest) =>
      if (Str.code a =? 49) && in_range 48 50 b
      then Some (10 + Str.digit_val b, rest)
      else if (Str.code a =? 48) && in_range 49 57 b
      then Some (Str.digit_val b, rest)
      else if in_range 49 57 a then Some (Str.digit_val a, String b rest)
      else None
  | String a EmptyString =>
      if in_range 49 57 a then Some (Str.digit_val a, EmptyString) else None
  | EmptyString => None
  end.

Definition parse_d (s : string) : option (Z * string) :=
  match s with
  | String a (String b rest) =>
      if (Str.code a =? 51) && in_range 48 49 b
      then Some (30 + Str.digit_val b, rest)
      else if in_range 49 50 a && Str.is_digit b
      then Some (Str.digit_val a * 10 + Str.digit_val b, rest)
      else if (Str.code a =? 48) && in_range 49 57 b
      then Some (Str.digit_val b, rest)
      else if in_range 49 57 a then Some (Str.digit_val a, String b rest)
      else if (Str.code a =? 32) && in_range 49 57 b
      then Some (Str.digit_val b, rest)
      else None
  | String a EmptyString =>
      if in_range 49 57 a then Some (Str.digit_val a, EmptyString) else None
  | EmptyString => None
  end.

Definition parse_ymd (s : string) : option (Z * Z * Z) :=
  '(y, s1) ← parse_Y s;
  s2 ← dash s1;
  '(m, s3) ← parse_m s2;
  s4 ← dash s3;
  '(d, s5) ← parse_d s4;
  if Re.at_end s5 then Some (y, m, d) else None.

Definition strptime (s : string) : exn + t :=
  match parse_ymd s with
  | Some (y, m, d) =>
      if check_date_fields y m d then inr (mk y m d 0 0 0 0) else inl ValueError
  | None => inl ValueError
  end.

End datetime.

(** ** Fields *)

(** A [Field] object.  The classes define no [__eq__], so [==] on two fields
    is identity: [oid] is the identity the runtime gave the object when it
    was constructed. *)
Record Field := { oid : nat; value : string }.

Definition Field_eq (x y : Field) : bool := bool_decide (oid x = oid y).

Definition Name (o : nat) (v : string) : Field := {| oid := o; value := v |}.

Definition validate_phone (v : string) : bool :=
  match Re.digits 9 v with
  | Some rest => Re.dollar rest
  | None => false
  end.

Definition PhoneNumber (o : nat) (v : string) : exn + Field :=
  if negb (validate_phone v) then inl ValueError
  else inr {| oid := o; value := v |}.

Definition validate_birthdate (v : string) : bool :=
  match datetime.strptime v with
  | inr _ => true
  | inl _ => false
  end.

Definition BirthDate (o : nat) (v : string) : exn + Field :=
  if negb (validate_birthdate v) then inl ValueError
  else inr {| oid := o; value := v |}.

Record AddressObj := {
  street : string; city : string; postal_code : string; country : string;
  address_value : Field
}.

Definition Address (o : nat) (st ci pc co : string) : AddressObj :=
  {| street := st; city := ci; postal_code := pc; country := co;
     address_value := {| oid := o;
                         value := (st ++ ", " ++ ci ++ ", " ++ pc ++ ", " ++ co)%string |} |}.

(** ** Record *)

Record RecordObj := {
  id : option Z;
  name : Field;
  phone_numbers : list Field;
  email_addresses : list Field;
  birthdate : option Field;
  address : option AddressObj
}.

(** [Record(name, birthdate)].  The driver passes the empty string for a
    birthdate left blank; it is falsy like [None] and is read only through
    truthiness tests, so [None] stands for both. *)
Definition Record_init (n : Field) (b : option Field) : RecordObj :=
  {| id := None; name := n; phone_numbers := []; email_addresses := [];
     birthdate := b; address := None |}.

Definition set_id (r : RecordObj) (i : Z) : RecordObj :=
  {| id := Some i; name := name r; phone_numbers := phone_numbers r;
     email_addresses := email_addresses r; birthdate := birthdate r;
     address := address r |}.

Definition set_phone_numbers (r : RecordObj) (l : list Field) : RecordObj :=
  {| id := id r; name := name r; phone_numbers := l;
     email_addresses := email_addresses r; birthdate := birthdate r;
     address := address r |}.

Definition set_email_addresses (r : RecordObj) (l : list Field) : RecordObj :=
  {| id := id r; name := name r; phone_numbers := phone_numbers r;
     email_addresses := l; birthdate := birthdate r; address := address r |}.

(** [l.remove(x)]: drops the first element [y] with [y == x]; [None] is the
    [ValueError] of a list without such an element. *)
Fixpoint list_remove (x : Field) (l : list Field) : option (list Field) :=
  match l with
  | [] => None
  | y :: l' =>
      if Field_eq y x then Some l' else (y ::.) <$> list_remove x l'
  end.

Definition add_phone_number (r : RecordObj) (p : Field) : RecordObj :=
  set_phone_numbers r (phone_numbers r ++ [p]).

Definition remove_phone_number (r : RecordObj) (p : Field)
  : outcome RecordObj unit :=
  match list_remove p (phone_numbers r) with
  | Some l => Returns (set_phone_numbers r l) ()
  | None => Raises r ValueError
  end.

Definition edit_phone_number (r : RecordObj) (old new : Field)
  : outcome RecordObj unit :=
  match remove_phone_number r old with
  | Returns r' _ => Returns (add_phone_number r' new) ()
  | Raises r' e => Raises r' e
  end.

Definition add_email_address (r : RecordObj) (e : Field) : RecordObj :=
  set_email_addresses r (email_addresses r ++ [e]).

Definition remove_email_address (r : RecordObj) (e : Field)
  : outcome RecordObj unit :=
  match list_remove e (email_addresses r) with
  | Some l => Returns (set_email_addresses r l) ()
  | None => Raises r ValueError
  end.

Definition edit_email_address (r : RecordObj) (old new : Field)
  : outcome RecordObj unit :=
  match remove_email_address r old with
  | Returns r' _ => Returns (add_email_address r' new) ()
  | Raises r' e => Raises r' e
  end.

(** What [days_to_birthdate] can hand back to its caller. *)
Inductive pyval :=
  | PyNone
  | PyStr (s : string)
  | PyInt (n : Z).

(** [days_to_birthdate], with the reading of the clock [datetime.now()] as
    the argument [today]. *)
Definition days_to_birthdate (today : datetime.t) (r : RecordObj) : exn + pyval :=
  match birthdate r with
  | None => inr (PyStr "Brak daty urodzenia")
  | Some b =>
      if negb (Str.truthy (value b)) then inr (PyStr "Brak daty urodzenia")
      else
        match datetime.strptime (value b) with
        | inl e => inl e
        | inr bday =>
            match datetime.replace_year bday (datetime.year today) with
            | inl e => inl e
            | inr next_birthday =>
                if datetime.gt today next_birthday then
                  match datetime.replace_year next_birthday
                          (datetime.year today + 1) with
                  | inl e => inl e
                  | inr next_birthday' =>
                      inr (PyInt (datetime.sub_days next_birthday' today))
                  end
                else inr (PyInt (datetime.sub_days next_birthday today))
            end
        end
  end.

(** ** AddressBook *)

Record AddressBook := {
  data : list (Z * RecordObj);
  next_id : Z;
  free_ids : gset Z
}.

Definition AddressBook_init : AddressBook :=
  {| data := []; next_id := 1; free_ids := ∅ |}.

(** The loop [while self.next_id in self.data or self.next_id in
    self.free_ids: self.next_id += 1], run for at most [fuel] rounds. *)
Fixpoint advance (fuel : nat) (d : list (Z * RecordObj)) (free : gset Z) (n : Z) : Z :=
  match fuel with
  | O => n
  | S fuel' =>
      if dict_contains d n || bool_decide (n ∈ free)
      then advance fuel' d free (n + 1)
      else n
  end.

(** One round more than there are live keys and free ids lets the loop
    reach its exit (lemma [advance_exits]). *)
Definition advance_next_id (b : AddressBook) : Z :=
  advance (S (List.length (data b) + size (free_ids b))) (data b) (free_ids b) (next_id b).

(** [add_record]: the book afterwards and the record as stored, with its id. *)
Definition add_record (b : AddressBook) (r : RecordObj) : AddressBook * RecordObj :=
  let n := advance_next_id b in
  match py_min (free_ids b) with
  | Some i =>
      let r' := set_id r i in
      ({| data := dict_set (data b) i r'; next_id := n;
          free_ids := free_ids b ∖ {[i]} |}, r')
  | None =>
      let r' := set_id r n in
      ({| data := dict_set (data b) n r'; next_id := n + 1;
          free_ids := free_ids b |}, r')
  end.

(** [delete_record_by_id]: [record_id] is what [int(record_id_str)] makes of
    the line typed by the user, [None] when it raises [ValueError]. *)
Definition delete_record_by_id (b : AddressBook) (record_id : option Z) : AddressBook :=
  match record_id with
  | Some i =>
      if dict_contains (data b) i
      then {| data := dict_del (data b) i; next_id := next_id b;
              free_ids := free_ids b ∪ {[i]} |}
      else b
  | None => b
  end.

(** The two inner loops of [find_record]: append [r] at the first field
    that contains the term, and [break]. *)
Fixpoint scan_fields (search_term : string) (r : RecordObj) (fs : list Field)
    (found : list RecordObj) : list RecordObj :=
  match fs with
  | [] => found
  | f :: fs' =>
      if Str.contains search_term (value f) then found ++ [r]
      else scan_fields search_term r fs' found
  end.

Definition find_step (search_term : string) (found : list RecordObj)
    (r : RecordObj) : list RecordObj :=
  if Str.contains (Str.lower search_term) (Str.lower (value (name r)))
  then found ++ [r]
  else
    scan_fields search_term r (email_addresses r)
      (scan_fields search_term r (phone_numbers r) found).

Definition find_record (b : AddressBook) (search_term : string) : list RecordObj :=
  foldl (find_step search_term) [] (dict_values (data b)).

(** What [open] and [pickle.load] make of the file. *)
Inductive file :=
  | FileNotFound
  | FileCorrupt
  | FileData (d : list (Z * RecordObj)).

(** [AddressBook.load] *)
Definition load (b : AddressBook) (f : file) : outcome AddressBook unit :=
  match f with
  | FileData d =>
      let data' := dict_update (data b) d in
      Returns {| data := data';
                 next_id := match py_max_list (dict_keys data') with
                            | Some m => m + 1
                            | None => next_id b
                            end;
                 free_ids := free_ids b |} ()
  | FileNotFound => Returns b ()
  | FileCorrupt => Raises b UnpicklingError
  end.

(** The module-level [load_address_book] *)
Definition load_address_book (f : file) : AddressBook :=
  match f with
  | FileData d =>
      {| data := d; next_id := next_id AddressBook_init;
         free_ids := free_ids AddressBook_init |}
  | FileNotFound => AddressBook_init
  | FileCorrupt => AddressBook_init
  end.

(** ** Notebook and Tag *)

(** The lines the notebook operations print. *)
Inductive message :=
  | NoteUpdated      (* "Zaktualizowano notatke." *)
  | NoteDeleted      (* "Usunieto notatke." *)
  | NoteNotFound     (* "Nie znaleziono notatki o podanym tytule." *)
  | TagAdded.        (* "Dodano tag do notatki." *)

(** A note body is whatever was stored under the title: the driver stores
    the [str] typed by the user; a [dict] body may carry a ["tags"] list. *)
Inductive note_value :=
  | VStr (s : string)
  | VList (l : list string).

Inductive note_body :=
  | BStr (s : string)
  | BDict (d : list (string * note_value)).

Module Notebook.

Record t := { data : list (string * note_body) }.

Definition init : t := {| data := [] |}.

Definition add_note (nb : t) (note_title : string) (note_content : note_body) : t :=
  {| data := dict_set (data nb) note_title note_content |}.

Definition modify_note_content (nb : t) (note_title : string)
    (new_content : note_body) : t * message :=
  if dict_contains (data nb) note_title
  then ({| data := dict_set (data nb) note_title new_content |}, NoteUpdated)
  else (nb, NoteNotFound).

Definition delete_note (nb : t) (note_title : string) : t * message :=
  if dict_contains (data nb) note_title
  then ({| data := dict_del (data nb) note_title |}, NoteDeleted)
  else (nb, NoteNotFound).

(** What [open] and [pickle.load] make of the notes file. *)
Inductive notes_file :=
  | NotesNotFound
  | NotesCorrupt
  | NotesData (d : list (string * note_body)).

Definition load_notes (nb : t) (f : notes_file) : outcome t unit :=
  match f with
  | NotesData d => Returns {| data := dict_update (data nb) d |} ()
  | NotesNotFound => Returns nb ()
  | NotesCorrupt => Raises nb UnpicklingError
  end.

End Notebook.

Module Tag.

(** [body["tags"].append(tag)] and [body["tags"] = [tag]], after the test
    ["tags" in body].  On a [str] the test is a substring test, subscripting
    with a string raises [TypeError], and so does item assignment. *)
Definition tag_body (body : note_body) (tag : string) : exn + note_body :=
  match body with
  | BStr s =>
      if Str.contains "tags" s
      then inl TypeError   (* s["tags"]: string indices must be integers *)
      else inl TypeError   (* s["tags"] = ...: no item assignment on str *)
  | BDict d =>
      match dict_get d "tags" with
      | Some (VList l) => inr (BDict (dict_set d "tags" (VList (l ++ [tag]))))
      | Some (VStr _) => inl AttributeError   (* str has no append *)
      | None => inr (BDict (dict_set d "tags" (VList [tag])))
      end
  end.

Definition tag_note (nb : Notebook.t) (note_title tag : string)
    : outcome Notebook.t message :=
  match dict_get (Notebook.data nb) note_title with
  | Some body =>
      match tag_body body tag with
      | inr body' =>
          Returns {| Notebook.data := dict_set (Notebook.data nb) note_title body' |}
                  TagAdded
      | inl e => Raises nb e
      end
  | None => Returns nb NoteNotFound
  end.

(** The tags a body carries, if it carries a list of them. *)
Definition tags_of (body : note_body) : option (list string) :=
  match body with
  | BDict d => match dict_get d "tags" with Some (VList l) => Some l | _ => None end
  | BStr _ => None
  end.

(** The test ["tags" in content and tag in content["tags"]] of
    [find_notes_by_tag].  On a [str] body that contains "tags" the
    subscript raises [TypeError]; a ["tags"] entry that is a [str] is
    searched for [tag] as a substring. *)
Definition has_tag (content : note_body) (tag : string) : exn + bool :=
  match content with
  | BStr s => if Str.contains "tags" s then inl TypeError else inr false
  | BDict d =>
      match dict_get d "tags" with
      | Some (VList l) => inr (bool_decide (tag ∈ l))
      | Some (VStr s) => inr (Str.contains tag s)
      | None => inr false
      end
  end.

Fixpoint find_notes_loop (items : list (string * note_body)) (tag : string)
    (found_notes : list (string * note_body))
    : exn + list (string * note_body) :=
  match items with
  | [] => inr found_notes
  | (title, content) :: items' =>
      match has_tag content tag with
      | inl e => inl e
      | inr true => find_notes_loop items' tag (found_notes ++ [(title, content)])
      | inr false => find_notes_loop items' tag found_notes
      end
  end.

Definition find_notes_by_tag (nb : Notebook.t) (tag : string)
    : exn + list (string * note_body) :=
  find_notes_loop (Notebook.data nb) tag [].

(** The key function of [sort_notes_by_tags], [x[1].get("tags", [])]:
    a [str] has no [get]. *)
Definition sort_key (content : note_body) : exn + note_value :=
  match content with
  | BStr _ => inl AttributeError
  | BDict d => inr (default (VList []) (dict_get d "tags"))
  end.

(** [sorted] computes the key of every item, in order, before it compares
    any two of them. *)
Fixpoint sort_keys (items : list (string * note_body))
    : exn + list (note_value * (string * note_body)) :=
  match items with
  | [] => inr []
  | item :: items' =>
      match sort_key item.2 with
      | inl e => inl e
      | inr k =>
          match sort_keys items' with
          | inl e => inl e
          | inr ks => inr ((k, item) :: ks)
          end
      end
  end.

(** [a < b] on two keys: lists of strings compare lexicographically,
    strings compare by code points, a list and a string do not compare. *)
Fixpoint list_lt (l1 l2 : list string) : bool :=
  match l1, l2 with
  | [], [] => false
  | [], _ :: _ => true
  | _ :: _, [] => false
  | x :: l1', y :: l2' =>
      if String.eqb x y then list_lt l1' l2' else String.ltb x y
  end.

Definition key_lt (a b : note_value) : exn + bool :=
  match a, b with
  | VList l1, VList l2 => inr (list_lt l1 l2)
  | VStr s1, VStr s2 => inr (String.ltb s1 s2)
  | _, _ => inl TypeError
  end.

(** [sorted] is stable and only uses [<]: an item goes in front of the
    first item already placed whose key is greater than its own. *)
Fixpoint sort_insert (x : note_value * (string * note_body))
    (placed : list (note_value * (string * note_body)))
    : exn + list (note_value * (string * note_body)) :=
  match placed with
  | [] => inr [x]
  | y :: placed' =>
      match key_lt x.1 y.1 with
      | inl e => inl e
      | inr true => inr (x :: y :: placed')
      | inr false =>
          match sort_insert x placed' with
          | inl e => inl e
          | inr l => inr (y :: l)
          end
      end
  end.

Fixpoint sort_loop (todo placed : list (note_value * (string * note_body)))
    : exn + list (note_value * (string * note_body)) :=
  match todo with
  | [] => inr placed
  | x :: todo' =>
      match sort_insert x placed with
      | inl e => inl e
      | inr placed' => sort_loop todo' placed'
      end
  end.

Definition sort_notes_by_tags (nb : Notebook.t)
    : exn + list (string * note_body) :=
  match sort_keys (Notebook.data nb) with
  | inl e => inl e
  | inr ks =>
      match sort_loop ks [] with
      | inl e => inl e
      | inr sorted => inr (sorted.*2)
      end
  end.

End Tag.

(** Sequences of notebook operations. *)
Inductive note_op :=
  | AddNote (title : string) (content : note_body)
  | ModifyNote (title : string) (content : note_body)
  | DeleteNote (title : string)
  | TagNote (title tag : string).

Definition note_step (nb : Notebook.t) (o : note_op) : Notebook.t :=
  match o with
  | AddNote t c => Notebook.add_note nb t c
  | ModifyNote t c => (Notebook.modify_note_content nb t c).1
  | DeleteNote t => (Notebook.delete_note nb t).1
  | TagNote t g => state_of (Tag.tag_note nb t g)
  end.

Definition note_run (nb : Notebook.t) (ops : list note_op) : Notebook.t :=
  foldl note_step nb ops.

(** The key of a [dict] body whose tags, if any, are a list. *)
Definition tags_key (content : note_body) : list string :=
  default [] (Tag.tags_of content).

(** The test of [find_notes_by_tag] came out true. *)
Definition tagged (tag : string) (item : string * note_body) : bool :=
  match Tag.has_tag item.2 tag with
  | inr true => true
  | _ => false
  end.

(** A body that is a [dict] whose ["tags"] entry, if any, is a list. *)
Definition dict_with_list_tags (content : note_body) : Prop :=
  match content with
  | BDict d => match dict_get d "tags" with Some (VStr _) => False | _ => True end
  | BStr _ => False
  end.

(** ** The rest of the address book and the driver *)

(** [find_records_by_name] *)
Definition find_records_by_name (b : AddressBook) (n : string)
    : list (Z * RecordObj) :=
  foldl (λ matching_records item,
           if Str.contains (Str.lower n) (Str.lower (value (name item.2)))
           then matching_records ++ [item] else matching_records)
        [] (data b).

(** The loop over the comma-separated phone numbers in [add_contact] and
    [edit_contact]: strip each entry, skip the empty ones, construct a
    [PhoneNumber] and add it, or print the error and go on.  [fresh] is the
    identity the next constructed object receives. *)
Fixpoint add_phone_numbers (fresh : nat) (r : RecordObj) (numbers : list string)
    : RecordObj * nat :=
  match numbers with
  | [] => (r, fresh)
  | number :: numbers' =>
      let number := Str.strip number in
      if Str.truthy number then
        match PhoneNumber fresh number with
        | inr phone => add_phone_numbers (S fresh) (add_phone_number r phone) numbers'
        | inl _ => add_phone_numbers (S fresh) r numbers'
        end
      else add_phone_numbers fresh r numbers'
  end.

(** The phone numbers typed on one line. *)
Definition read_phone_numbers (fresh : nat) (r : RecordObj) (line : string)
    : RecordObj * nat :=
  add_phone_numbers fresh r (Str.split Str.comma line).

(** The condition [record.birthdate and record.days_to_birthdate() < 7] of
    [display_contacts_with_birthdays]; comparing a [str] or [None] with 7
    raises [TypeError]. *)
Definition birthday_soon (today : datetime.t) (r : RecordObj) : exn + bool :=
  match birthdate r with
  | None => inr false
  | Some _ =>
      match days_to_birthdate today r with
      | inl e => inl e
      | inr (PyInt n) => inr (n <? 7)
      | inr (PyStr _) => inl TypeError
      | inr PyNone => inl TypeError
      end
  end.

(** The list comprehension of [display_contacts_with_birthdays]: the first
    record whose condition raises ends it. *)
Fixpoint contacts_with_birthdays_of (today : datetime.t) (rs : list RecordObj)
    : exn + list RecordObj :=
  match rs with
  | [] => inr []
  | r :: rs' =>
      match birthday_soon today r with
      | inl e => inl e
      | inr keep =>
          match contacts_with_birthdays_of today rs' with
          | inl e => inl e
          | inr l => inr (if keep then r :: l else l)
          end
      end
  end.

Definition contacts_with_birthdays (today : datetime.t) (b : AddressBook)
    : exn + list RecordObj :=
  contacts_with_birthdays_of today (dict_values (data b)).

(** The condition of the birthday listing came out true. *)
Definition due (today : datetime.t) (r : RecordObj) : bool :=
  match birthday_soon today r with
  | inr true => true
  | _ => false
  end.


(** ** Specification vocabulary *)

Definition is_min (X : gset Z) (m : Z) : Prop :=
  m ∈ X ∧ ∀ x, x ∈ X → m ≤ x.

Definition is_max_list (l : list Z) (m : Z) : Prop :=
  m ∈ l ∧ ∀ x, x ∈ l → x ≤ m.

(** [n] is not a live key and not a free id: the loop of [add_record] stops. *)
Definition unused (b : AddressBook) (n : Z) : Prop :=
  (n ∉ dict_keys (data b)) ∧ (n ∉ free_ids b).

(** The ids the loop of [add_record] has to skip. *)
Definition taken (d : list (Z * RecordObj)) (free : gset Z) : gset Z :=
  list_to_set (dict_keys d) ∪ free.

(** Sequences of inserts and deletes. *)
Inductive op :=
  | Insert (r : RecordObj)
  | Delete (record_id : option Z).

Definition step (b : AddressBook) (o : op) : AddressBook :=
  match o with
  | Insert r => (add_record b r).1
  | Delete i => delete_record_by_id b i
  end.

Definition run (b : AddressBook) (ops : list op) : AddressBook :=
  foldl step b ops.

(** Every live key and every free id lies below [next_id]. *)
Definition below_next_id (b : AddressBook) : Prop :=
  ∀ k, k ∈ dict_keys (data b) ∨ k ∈ free_ids b → k < next_id b.

(** [sub] occurs in [s]. *)
Definition is_substring (sub s : string) : Prop :=
  ∃ pre post, s = (pre ++ (sub ++ post))%string.

(** The three ways a record can match a search term. *)
Definition name_matches (term : string) (r : RecordObj) : bool :=
  Str.contains (Str.lower term) (Str.lower (value (name r))).

Definition phone_matches (term : string) (r : RecordObj) : bool :=
  existsb (λ p, Str.contains term (value p)) (phone_numbers r).

Definition email_matches (term : string) (r : RecordObj) : bool :=
  existsb (λ e, Str.contains term (value e)) (email_addresses r).

Definition matches (term : string) (r : RecordObj) : bool :=
  name_matches term r || phone_matches term r || email_matches term r.

(** What one record contributes to the result of [find_record]. *)
Definition hits (term : string) (r : RecordObj) : list RecordObj :=
  if name_matches term r then [r]
  else (if phone_matches term r then [r] else [])
       ++ (if email_matches term r then [r] else []).

(** A string of exactly nine decimal digits. *)
Definition nine_digits (s : string) : Prop :=
  String.length s = 9%nat ∧ Forall (λ c, Str.is_digit c = true) (list_ascii_of_string s).

(** ** Concrete books, records and notes used in the examples *)

Module Ex.

Definition R (k : nat) (n : string) : RecordObj := Record_init (Name k n) None.

Definition R1 : RecordObj := R 1 "R1".
Definition R2 : RecordObj := R 2 "R2".
Definition R3 : RecordObj := R 3 "R3".
Definition R4 : RecordObj := R 4 "R4".
Definition R5 : RecordObj := R 5 "R5".

(** Three inserts into a new book, then the record with id 2 deleted. *)
Definition book3 : AddressBook :=
  run AddressBook_init [Insert R1; Insert R2; Insert R3].

Definition book3_del2 : AddressBook := delete_record_by_id book3 (Some 2).

(** Two phone number objects with the same digits, and a contact that
    holds the first one. *)
Definition phone_a : Field := {| oid := 11; value := "111111111" |}.
Definition phone_b : Field := {| oid := 12; value := "111111111" |}.
Definition phone_c : Field := {| oid := 13; value := "222222222" |}.

Definition jan : RecordObj := add_phone_number (R 10 "Jan Kowalski") phone_a.

Definition jan3 : RecordObj :=
  add_phone_number (add_phone_number jan phone_c) phone_b.

Definition mail_a : Field := {| oid := 21; value := "jan@x.pl" |}.
Definition mail_b : Field := {| oid := 22; value := "jan@x.pl" |}.

Definition jan_mail : RecordObj := add_email_address (R 10 "Jan Kowalski") mail_a.

(** A notebook as the driver builds it: the body is the text typed in. *)
Definition notes_todo : Notebook.t :=
  Notebook.add_note Notebook.init "todo" (BStr "buy milk").

(** A notebook whose note has a [dict] body, without and with tags. *)
Definition notes_dict : Notebook.t :=
  Notebook.add_note Notebook.init "todo" (BDict [("text", VStr "buy milk")]).

Definition notes_tagged : Notebook.t :=
  Notebook.add_note Notebook.init "todo"
    (BDict [("text", VStr "buy milk"); ("tags", VList ["work"])]).

(** A persisted book with two contacts. *)
Definition file12 : file := FileData [(1, set_id R1 1); (2, set_id R2 2)].

(** A persisted book with no contact. *)
Definition file_empty : file := FileData [].

(** A book that has seen one insert and one delete: empty, id 1 free. *)
Definition book_used : AddressBook :=
  run AddressBook_init [Insert R1; Delete (Some 1)].

(** A reading of the clock, and a contact with a birthdate. *)
Definition clock (y m d h : Z) : datetime.t := datetime.mk y m d h 0 0 0.

Definition born (v : string) : RecordObj :=
  Record_init (Name 30 "Anna Nowak") (Some {| oid := 31; value := v |}).

(** A contact whose phone number and email address both contain "1",
    and the book that holds only this contact. *)
Definition bob : RecordObj :=
  add_email_address
    (add_phone_number (R 40 "Bob") {| oid := 41; value := "123456789" |})
    {| oid := 42; value := "a1@x.pl" |}.

Definition book_bob : AddressBook := (add_record AddressBook_init bob).1.

(** The two contacts of the search scenario. *)
Definition kowalski : RecordObj :=
  add_email_address
    (add_phone_number (R 50 "Jan Kowalski") {| oid := 51; value := "501501501" |})
    {| oid := 52; value := "jan@x.pl" |}.

Definition nowak : RecordObj :=
  add_email_address
    (add_phone_number (R 60 "Anna Nowak") {| oid := 61; value := "602602602" |})
    {| oid := 62; value := "anna@y.pl" |}.

Definition book_s4 : AddressBook :=
  run AddressBook_init [Insert kowalski; Insert nowak].

(** Nine digits followed by a line feed. *)
Definition digits_newline : string := String.append "123456789" (String Re.newline EmptyString).

(** A book with the contacts 1 and 3, and a persisted book with the
    contacts 3 and 5. *)
Definition book13 : AddressBook := book3_del2.

Definition file35 : file := FileData [(3, set_id R4 3); (5, set_id R5 5)].

(** Notes on disk. *)
Definition notes_on_disk : Notebook.notes_file :=
  Notebook.NotesData [("todo", BStr "buy bread"); ("diary", BStr "rain")].

(** Three notes with [dict] bodies: tags ["work"], no tags, tags ["home"]. *)
Definition notes_three : Notebook.t :=
  note_run Notebook.init
    [AddNote "a" (BDict [("tags", VList ["work"])]);
     AddNote "b" (BDict [("text", VStr "plain")]);
     AddNote "c" (BDict [("tags", VList ["home"])])].

(** The notebook after the notes on disk were loaded into an empty one. *)
Definition notes_on_disk_book : Notebook.t :=
  state_of (Notebook.load_notes Notebook.init notes_on_disk).

(** A book with a contact born on 7 March, a contact without birthdate and
    a contact born on 29 February. *)
Definition book_birthdays : AddressBook :=
  run AddressBook_init [Insert (born "2000-03-07"); Insert R1].

Definition book_leap_day : AddressBook :=
  run book_birthdays [Insert (born "2000-02-29")].

End Ex.

(** Closed decidable side conditions are settled by evaluating their
    decision procedure. *)
Ltac by_evaluation := apply (bool_decide_unpack _); vm_compute; exact I.

(** ** Dictionaries, [min], [max] *)

Section dict_facts.
Context {K V : Type} `{EqDecision K}.
Implicit Types (d : list (K * V)) (k : K) (v : V).

Lemma dict_contains_true d k : dict_contains d k = true ↔ k ∈ dict_keys d.
Proof. unfold dict_contains. by rewrite bool_decide_eq_true. Qed.

Lemma dict_contains_false d k : dict_contains d k = false ↔ k ∉ dict_keys d.
Proof. unfold dict_contains. by rewrite bool_decide_eq_false. Qed.

Lemma dict_get_None d k : dict_get d k = None ↔ k ∉ dict_keys d.
Proof.
  induction d as [|[k' v'] d IH]; simpl.
  - split; [intros _; apply not_elem_of_nil | done].
  - destruct (decide (k = k')) as [->|Hne].
    + split; [done | intros []; left].
    + rewrite IH, not_elem_of_cons. naive_solver.
Qed.

Lemma dict_get_Some_key d k v : dict_get d k = Some v → k ∈ dict_keys d.
Proof.
  intros Hget. destruct (decide (k ∈ dict_keys d)) as [|Hn]; [done|].
  apply dict_get_None in Hn. congruence.
Qed.

Lemma dict_set_fresh d k v : k ∉ dict_keys d → dict_set d k v = d ++ [(k, v)].
Proof.
  induction d as [|[k' v'] d IH]; simpl; [done|].
  rewrite not_elem_of_cons. intros [Hne Hnin].
  destruct (decide (k = k')); [done|]. by rewrite IH.
Qed.

Lemma dict_keys_set d k v x :
  x ∈ dict_keys (dict_set d k v) ↔ x = k ∨ x ∈ dict_keys d.
Proof.
  induction d as [|[k' v'] d IH]; simpl.
  - rewrite list_elem_of_singleton. split; [naive_solver|].
    intros [->|Hin]; [done|]. by apply not_elem_of_nil in Hin.
  - destruct (decide (k = k')) as [->|Hne]; simpl;
      rewrite !elem_of_cons; [naive_solver|].
    rewrite IH. naive_solver.
Qed.

Lemma dict_keys_del d k x : x ∈ dict_keys (dict_del d k) → x ∈ dict_keys d.
Proof.
  induction d as [|[k' v'] d IH]; simpl; [done|].
  destruct (decide (k = k')) as [->|Hne]; simpl; rewrite !elem_of_cons;
    naive_solver.
Qed.

Lemma dict_get_app_l d d' k :
  k ∈ dict_keys d → dict_get (d ++ d') k = dict_get d k.
Proof.
  induction d as [|[k' v'] d IH]; simpl.
  - intros Hin. by apply not_elem_of_nil in Hin.
  - rewrite elem_of_cons. intros Hin.
    destruct (decide (k = k')); [done|]. apply IH. naive_solver.
Qed.

Lemma dict_get_app_r d d' k :
  k ∉ dict_keys d → dict_get (d ++ d') k = dict_get d' k.
Proof.
  induction d as [|[k' v'] d IH]; simpl; [done|].
  rewrite not_elem_of_cons. intros [Hne Hnin].
  destruct (decide (k = k')); [done|]. by apply IH.
Qed.

Lemma dict_get_set_eq d k v : dict_get (dict_set d k v) k = Some v.
Proof.
  induction d as [|[k' v'] d IH]; simpl.
  - by rewrite decide_True.
  - destruct (decide (k = k')) as [->|Hne]; simpl.
    + by rewrite decide_True.
    + by rewrite decide_False.
Qed.

End dict_facts.

Lemma py_min_list_spec l m :
  py_min_list l = Some m → m ∈ l ∧ ∀ x, x ∈ l → m ≤ x.
Proof.
  destruct l as [|a l]; simpl; [done|]. intros [= <-].
  induction l as [|b l [IHin IHle]]; simpl.
  - split; [left|]. intros x ->%list_elem_of_singleton. lia.
  - split.
    + destruct (Z.min_spec b (foldr Z.min a l)) as [[_ ->]|[_ ->]].
      * right; left.
      * apply elem_of_cons in IHin as [Heq|Hin]; [rewrite Heq; left|].
        right; right; done.
    + intros x. rewrite !elem_of_cons. intros [->|[->|Hin]].
      * specialize (IHle a (list_elem_of_here _ _)). lia.
      * lia.
      * specialize (IHle x (list_elem_of_further _ _ _ Hin)). lia.
Qed.

Lemma py_max_list_spec l m : py_max_list l = Some m → is_max_list l m.
Proof.
  unfold is_max_list.
  destruct l as [|a l]; simpl; [done|]. intros [= <-].
  induction l as [|b l [IHin IHle]]; simpl.
  - split; [left|]. intros x ->%list_elem_of_singleton. lia.
  - split.
    + destruct (Z.max_spec b (foldr Z.max a l)) as [[_ ->]|[_ ->]].
      * apply elem_of_cons in IHin as [Heq|Hin]; [rewrite Heq; left|].
        right; right; done.
      * right; left.
    + intros x. rewrite !elem_of_cons. intros [->|[->|Hin]].
      * specialize (IHle a (list_elem_of_here _ _)). lia.
      * lia.
      * specialize (IHle x (list_elem_of_further _ _ _ Hin)). lia.
Qed.

Lemma py_max_list_None l : py_max_list l = None ↔ l = [].
Proof. destruct l; simpl; naive_solver. Qed.

Lemma py_min_None X : py_min X = None ↔ X = ∅.
Proof.
  unfold py_min. destruct (elements X) as [|a l] eqn:E; simpl.
  - split; [intros _|done]. by apply leibniz_equiv, elements_empty_iff.
  - split; [done|]. intros ->. by rewrite elements_empty in E.
Qed.

Lemma py_min_Some X m : py_min X = Some m → is_min X m.
Proof.
  unfold py_min, is_min. intros [Hin Hle]%py_min_list_spec.
  split; [by apply elem_of_elements|].
  intros x Hx. apply Hle. by apply elem_of_elements.
Qed.

Lemma is_min_unique X m m' : is_min X m → is_min X m' → m = m'.
Proof. intros [H1 H2] [H3 H4]. specialize (H2 _ H3). specialize (H4 _ H1). lia. Qed.

(** ** The loop of [add_record] *)

Section advance.
Variables (d : list (Z * RecordObj)) (free : gset Z).

Lemma elem_of_taken n : n ∈ taken d free ↔ n ∈ dict_keys d ∨ n ∈ free.
Proof. unfold taken. rewrite elem_of_union, elem_of_list_to_set. done. Qed.

Lemma loop_test n :
  dict_contains d n || bool_decide (n ∈ free) = bool_decide (n ∈ taken d free).
Proof.
  apply eq_true_iff_eq.
  rewrite orb_true_iff, dict_contains_true, !bool_decide_eq_true.
  symmetry. apply elem_of_taken.
Qed.

Lemma advance_ge fuel n : n ≤ advance fuel d free n.
Proof.
  revert n. induction fuel as [|fuel IH]; intros n; simpl; [lia|].
  destruct (dict_contains d n || bool_decide (n ∈ free)); [|lia].
  specialize (IH (n + 1)). lia.
Qed.

(** Everything the loop stepped over was taken. *)
Lemma advance_skipped fuel n m :
  n ≤ m < advance fuel d free n → m ∈ taken d free.
Proof.
  revert n. induction fuel as [|fuel IH]; intros n; simpl; [lia|].
  rewrite loop_test. case_bool_decide as Hn; [|lia].
  intros Hm. destruct (decide (m = n)) as [->|Hne]; [done|].
  apply (IH (n + 1)). lia.
Qed.

Lemma advance_stays fuel n : n ∉ taken d free → advance fuel d free n = n.
Proof.
  destruct fuel as [|fuel]; simpl; [done|].
  rewrite loop_test. intros Hn. by rewrite bool_decide_eq_false_2.
Qed.

(** With more fuel than taken ids from [n] on, the loop leaves through its
    test: the result is not taken. *)
Lemma advance_exits_fuel fuel n :
  (size (filter (λ x, (n ≤ x)%Z) (taken d free)) < fuel)%nat →
  advance fuel d free n ∉ taken d free.
Proof.
  revert n. induction fuel as [|fuel IH]; intros n Hsz; simpl; [lia|].
  rewrite loop_test. case_bool_decide as Hn; [|done].
  apply IH.
  assert (filter (λ x, n + 1 ≤ x) (taken d free) ⊂ filter (λ x, n ≤ x) (taken d free)) as Hsub.
  { split.
    - intros x. rewrite !elem_of_filter. intros [? ?]. split; [lia|done].
    - intros Hsup. specialize (Hsup n).
      rewrite !elem_of_filter in Hsup.
      destruct Hsup as [? _]; [split; [lia|done]|lia]. }
  apply subset_size in Hsub. lia.
Qed.

Lemma size_taken : (size (taken d free) ≤ List.length d + size free)%nat.
Proof.
  unfold taken.
  assert (∀ l : list Z, (size (list_to_set l : gset Z) ≤ List.length l)%nat) as Hl.
  { induction l as [|a l IH].
    - rewrite list_to_set_nil, size_empty. done.
    - rewrite list_to_set_cons, size_union_alt, size_singleton. simpl.
      pose proof (subseteq_size (list_to_set l ∖ {[a]}) (list_to_set l : gset Z)
                    ltac:(set_solver)). lia. }
  rewrite size_union_alt.
  pose proof (subseteq_size (free ∖ list_to_set (dict_keys d)) free
                ltac:(set_solver)).
  specialize (Hl (dict_keys d)). unfold dict_keys in *.
  rewrite length_fmap in Hl. lia.
Qed.

Lemma advance_exits n :
  advance (S (List.length d + size free)) d free n ∉ taken d free.
Proof.
  apply advance_exits_fuel.
  pose proof size_taken.
  pose proof (subseteq_size (filter (λ x, n ≤ x) (taken d free)) (taken d free)
                ltac:(set_solver)). lia.
Qed.

End advance.

Lemma advance_next_id_unused b : unused b (advance_next_id b).
Proof.
  unfold unused, advance_next_id.
  pose proof (advance_exits (data b) (free_ids b) (next_id b)) as H.
  rewrite elem_of_taken in H. naive_solver.
Qed.

Lemma advance_next_id_ge b : next_id b ≤ advance_next_id b.
Proof. apply advance_ge. Qed.

Lemma advance_next_id_least b m :
  next_id b ≤ m < advance_next_id b → m ∈ dict_keys (data b) ∨ m ∈ free_ids b.
Proof. intros H. apply elem_of_taken. by eapply advance_skipped. Qed.

Lemma advance_next_id_stays b : unused b (next_id b) → advance_next_id b = next_id b.
Proof.
  intros [H1 H2]. apply advance_stays. rewrite elem_of_taken. naive_solver.
Qed.

(** ** AddressBook: id allocation *)

Lemma add_record_reuse b r m :
  py_min (free_ids b) = Some m →
  add_record b r =
    ({| data := dict_set (data b) m (set_id r m);
        next_id := advance_next_id b;
        free_ids := free_ids b ∖ {[m]} |}, set_id r m).
Proof. intros H. unfold add_record. by rewrite H. Qed.

Lemma add_record_fresh b r :
  free_ids b = ∅ →
  add_record b r =
    ({| data := dict_set (data b) (advance_next_id b) (set_id r (advance_next_id b));
        next_id := advance_next_id b + 1;
        free_ids := free_ids b |}, set_id r (advance_next_id b)).
Proof. intros H%py_min_None. unfold add_record. by rewrite H. Qed.

Lemma add_record_cases b :
  (∃ m, py_min (free_ids b) = Some m) ∨ free_ids b = ∅.
Proof.
  destruct (py_min (free_ids b)) as [m|] eqn:E; [left; eauto|].
  right. by apply py_min_None.
Qed.

Lemma add_record_next_id_mono b r : next_id b ≤ next_id (add_record b r).1.
Proof.
  pose proof (advance_next_id_ge b).
  destruct (add_record_cases b) as [[m Hm]|He].
  - rewrite (add_record_reuse _ _ _ Hm). simpl. lia.
  - rewrite (add_record_fresh _ _ He). simpl. lia.
Qed.

Lemma delete_record_next_id b i :
  next_id (delete_record_by_id b i) = next_id b.
Proof.
  unfold delete_record_by_id. destruct i as [i|]; [|done].
  by destruct (dict_contains (data b) i).
Qed.

Lemma step_next_id_mono b o : next_id b ≤ next_id (step b o).
Proof.
  destruct o as [r|i]; simpl.
  - apply add_record_next_id_mono.
  - rewrite delete_record_next_id. lia.
Qed.

Lemma run_next_id_mono ops : ∀ b, next_id b ≤ next_id (run b ops).
Proof.
  unfold run. induction ops as [|o ops IH]; intros b; simpl; [lia|].
  pose proof (step_next_id_mono b o). specialize (IH (step b o)). lia.
Qed.

Lemma below_next_id_unused b : below_next_id b → unused b (next_id b).
Proof.
  intros Hinv. split; intros Hin.
  - specialize (Hinv (next_id b) (or_introl Hin)). lia.
  - specialize (Hinv (next_id b) (or_intror Hin)). lia.
Qed.

Lemma step_below_next_id b o : below_next_id b → below_next_id (step b o).
Proof.
  intros Hinv. pose proof (advance_next_id_ge b) as Hge.
  destruct o as [r|[i|]]; simpl; [| |done].
  - destruct (add_record_cases b) as [[m Hm]|He].
    + rewrite (add_record_reuse _ _ _ Hm). intros k; simpl.
      apply py_min_Some in Hm as [Hm _].
      rewrite dict_keys_set, elem_of_difference.
      intros [[->|Hk]|[Hk _]].
      * specialize (Hinv m (or_intror Hm)). lia.
      * specialize (Hinv k (or_introl Hk)). lia.
      * specialize (Hinv k (or_intror Hk)). lia.
    + rewrite (add_record_fresh _ _ He). intros k; simpl.
      rewrite dict_keys_set.
      intros [[->|Hk]|Hk].
      * lia.
      * specialize (Hinv k (or_introl Hk)). lia.
      * specialize (Hinv k (or_intror Hk)). lia.
  - destruct (dict_contains (data b) i) eqn:Hc; [|done].
    apply dict_contains_true in Hc.
    intros k; simpl. rewrite elem_of_union, elem_of_singleton.
    intros [Hk|[Hk| ->]].
    + apply dict_keys_del in Hk. specialize (Hinv k (or_introl Hk)). lia.
    + specialize (Hinv k (or_intror Hk)). lia.
    + specialize (Hinv i (or_introl Hc)). lia.
Qed.

Lemma run_below_next_id ops : ∀ b, below_next_id b → below_next_id (run b ops).
Proof.
  unfold run. induction ops as [|o ops IH]; intros b Hb; simpl; [done|].
  apply IH. by apply step_below_next_id.
Qed.

Lemma init_below_next_id : below_next_id AddressBook_init.
Proof.
  intros k [Hk|Hk]; simpl in Hk.
  - by apply not_elem_of_nil in Hk.
  - by apply not_elem_of_empty in Hk.
Qed.

(** C1.  [add_record] gives the record the least free id when [free_ids] is
    not empty; otherwise it gives it [next_id], as the loop at the head of
    [add_record] leaves it: the first integer from the stored [next_id] on
    that is neither a live key nor a free id, which is the stored [next_id]
    itself in every book built by inserts and deletes from a new one.
    [next_id] never decreases along a sequence of inserts and deletes.
    Inserting three records gives the ids 1, 2, 3; after deleting id 2 the
    next insert receives 2 and the one after it 4. *)
Theorem add_record_id_policy :
  (∀ b r, free_ids b ≠ ∅ →
     ∃ m, is_min (free_ids b) m ∧ id (add_record b r).2 = Some m)
  ∧ (∀ b r, free_ids b = ∅ →
       id (add_record b r).2 = Some (advance_next_id b)
       ∧ next_id (add_record b r).1 = advance_next_id b + 1
       ∧ next_id b ≤ advance_next_id b
       ∧ unused b (advance_next_id b)
       ∧ (∀ m, next_id b ≤ m < advance_next_id b → m ∈ dict_keys (data b))
       ∧ (unused b (next_id b) → advance_next_id b = next_id b))
  ∧ (∀ ops r, let b := run AddressBook_init ops in
       free_ids b = ∅ → id (add_record b r).2 = Some (next_id b))
  ∧ (∀ b ops, next_id b ≤ next_id (run b ops))
  ∧ (id <$> dict_get (data Ex.book3) 1 = Some (Some 1)
     ∧ id <$> dict_get (data Ex.book3) 2 = Some (Some 2)
     ∧ id <$> dict_get (data Ex.book3) 3 = Some (Some 3)
     ∧ dict_keys (data Ex.book3) = [1; 2; 3]
     ∧ id (add_record Ex.book3_del2 Ex.R4).2 = Some 2
     ∧ id (add_record (add_record Ex.book3_del2 Ex.R4).1 Ex.R5).2 = Some 4).
Proof.
  split; [|split; [|split; [|split]]].
  - intros b r Hne.
    destruct (add_record_cases b) as [[m Hm]|He]; [|done].
    exists m. rewrite (add_record_reuse _ _ _ Hm).
    split; [by apply py_min_Some|done].
  - intros b r He. rewrite (add_record_fresh _ _ He). simpl.
    split; [done|]. split; [done|].
    split; [apply advance_next_id_ge|].
    split; [apply advance_next_id_unused|].
    split; [|apply advance_next_id_stays].
    intros m Hm. destruct (advance_next_id_least b m Hm) as [|Hf]; [done|].
    rewrite He in Hf. by apply not_elem_of_empty in Hf.
  - intros ops r b He. rewrite (add_record_fresh _ _ He). simpl.
    f_equal. apply advance_next_id_stays, below_next_id_unused.
    apply run_below_next_id, init_below_next_id.
  - intros b ops. apply run_next_id_mono.
  - vm_compute. repeat split; reflexivity.
Qed.

Lemma add_record_id_policy_witness :
  (∃ m, is_min (free_ids Ex.book3_del2) m
        ∧ id (add_record Ex.book3_del2 Ex.R4).2 = Some m)
  ∧ id (add_record Ex.book3 Ex.R4).2 = Some (advance_next_id Ex.book3)
  ∧ id (add_record (run AddressBook_init [Insert Ex.R1; Delete (Some 1)]) Ex.R2).2
    = Some 1
  ∧ id (add_record (run AddressBook_init [Insert Ex.R1]) Ex.R2).2
    = Some (next_id (run AddressBook_init [Insert Ex.R1])).
Proof.
  destruct add_record_id_policy as (Hreuse & Hfresh & Hrun & _ & _).
  split; [|split; [|split]].
  - apply Hreuse. by_evaluation.
  - apply Hfresh. vm_compute. reflexivity.
  - vm_compute. reflexivity.
  - apply (Hrun [Insert Ex.R1] Ex.R2). vm_compute. reflexivity.
Defined.

(** ** AddressBook: what an insert leaves alone *)

Lemma add_record_assigned_not_live b r i :
  (∀ k, k ∈ dict_keys (data b) → k ∉ free_ids b) →
  id (add_record b r).2 = Some i →
  i ∉ dict_keys (data b).
Proof.
  intros Hdisj.
  destruct (add_record_cases b) as [[m Hm]|He].
  - rewrite (add_record_reuse _ _ _ Hm). simpl. intros [= <-] Hin.
    apply py_min_Some in Hm as [Hm _]. by apply (Hdisj m).
  - rewrite (add_record_fresh _ _ He). simpl. intros [= <-].
    apply advance_next_id_unused.
Qed.

Lemma add_record_stores b r :
  ∃ i, id (add_record b r).2 = Some i
       ∧ data (add_record b r).1 = dict_set (data b) i (add_record b r).2.
Proof.
  destruct (add_record_cases b) as [[m Hm]|He].
  - rewrite (add_record_reuse _ _ _ Hm). simpl. eauto.
  - rewrite (add_record_fresh _ _ He). simpl. eauto.
Qed.

(** C9.  In a book whose live keys are disjoint from [free_ids] and differ
    from [next_id], inserting a record without id stores it under an id that
    was not live, after all the existing entries, and every stored binding
    reads as before. *)
Theorem add_record_frame b r :
  (∀ k, k ∈ dict_keys (data b) → k ∉ free_ids b) →
  next_id b ∉ dict_keys (data b) →
  id r = None →
  ∃ i, id (add_record b r).2 = Some i
       ∧ (i ∉ dict_keys (data b))
       ∧ data (add_record b r).1 = data b ++ [(i, (add_record b r).2)]
       ∧ (add_record b r).2 = set_id r i
       ∧ ∀ k, k ∈ dict_keys (data b) →
              dict_get (data (add_record b r).1) k = dict_get (data b) k.
Proof.
  intros Hdisj _ _.
  destruct (add_record_stores b r) as (i & Hid & Hdata).
  pose proof (add_record_assigned_not_live b r i Hdisj Hid) as Hnew.
  exists i. split; [done|]. split; [done|].
  rewrite Hdata, (dict_set_fresh _ _ _ Hnew).
  split; [done|]. split.
  - destruct (add_record_cases b) as [[m Hm]|He].
    + rewrite (add_record_reuse _ _ _ Hm) in Hid |- *. simpl in *. congruence.
    + rewrite (add_record_fresh _ _ He) in Hid |- *. simpl in *. congruence.
  - intros k Hk. by apply dict_get_app_l.
Qed.

Lemma add_record_frame_witness :
  ∃ i, id (add_record Ex.book3_del2 Ex.R4).2 = Some i
       ∧ (i ∉ dict_keys (data Ex.book3_del2))
       ∧ data (add_record Ex.book3_del2 Ex.R4).1
         = data Ex.book3_del2 ++ [(i, (add_record Ex.book3_del2 Ex.R4).2)]
       ∧ (add_record Ex.book3_del2 Ex.R4).2 = set_id Ex.R4 i
       ∧ ∀ k, k ∈ dict_keys (data Ex.book3_del2) →
              dict_get (data (add_record Ex.book3_del2 Ex.R4).1) k
              = dict_get (data Ex.book3_del2) k.
Proof.
  apply (add_record_frame Ex.book3_del2 Ex.R4).
  - apply Forall_forall. by_evaluation.
  - by_evaluation.
  - reflexivity.
Defined.

(** ** Record: removing a phone number or an email address *)

Lemma Field_eq_true x y : Field_eq x y = true ↔ oid x = oid y.
Proof. unfold Field_eq. by rewrite bool_decide_eq_true. Qed.

Lemma Field_eq_false x y : Field_eq x y = false ↔ oid x ≠ oid y.
Proof. unfold Field_eq. by rewrite bool_decide_eq_false. Qed.

Lemma list_remove_first p l1 x l2 :
  oid x = oid p →
  (∀ y, y ∈ l1 → oid y ≠ oid p) →
  list_remove p (l1 ++ x :: l2) = Some (l1 ++ l2).
Proof.
  intros Hx. induction l1 as [|y l1 IH]; intros Hl1; simpl.
  - by rewrite (proj2 (Field_eq_true x p) Hx).
  - rewrite (proj2 (Field_eq_false y p) (Hl1 y (list_elem_of_here _ _))).
    rewrite IH; [done|]. intros z Hz. apply Hl1. by right.
Qed.

Lemma list_remove_absent p l :
  (∀ y, y ∈ l → oid y ≠ oid p) → list_remove p l = None.
Proof.
  induction l as [|y l IH]; intros Hl; simpl; [done|].
  rewrite (proj2 (Field_eq_false y p) (Hl y (list_elem_of_here _ _))).
  rewrite IH; [done|]. intros z Hz. apply Hl. by right.
Qed.

(** One of the two cases always applies. *)
Lemma list_remove_cases p l :
  (∃ l1 x l2, l = l1 ++ x :: l2 ∧ oid x = oid p ∧ ∀ y, y ∈ l1 → oid y ≠ oid p)
  ∨ (∀ y, y ∈ l → oid y ≠ oid p).
Proof.
  induction l as [|y l [(l1 & x & l2 & -> & Hx & Hl1)|Hnone]].
  - right. intros y Hy. by apply not_elem_of_nil in Hy.
  - destruct (decide (oid y = oid p)) as [Hy|Hy].
    + left. exists [], y, (l1 ++ x :: l2). split; [done|]. split; [done|].
      intros z Hz. by apply not_elem_of_nil in Hz.
    + left. exists (y :: l1), x, l2. split; [done|]. split; [done|].
      intros z [->|Hz]%elem_of_cons; [done|]. by apply Hl1.
  - destruct (decide (oid y = oid p)) as [Hy|Hy].
    + left. exists [], y, l. split; [done|]. split; [done|].
      intros z Hz. by apply not_elem_of_nil in Hz.
    + right. intros z [->|Hz]%elem_of_cons; [done|]. by apply Hnone.
Qed.

(** C8, as the code has it.  [remove_phone_number(p)] removes the first
    element of [phone_numbers] that is the object [p] itself (fields compare
    by identity, not by value), and raises [ValueError] when [p] is not an
    element, leaving the record as it was; [remove_email_address] does the
    same on [email_addresses]. *)
Theorem remove_field_by_identity r p :
  (∀ l1 x l2,
     phone_numbers r = l1 ++ x :: l2 → oid x = oid p →
     (∀ y, y ∈ l1 → oid y ≠ oid p) →
     remove_phone_number r p = Returns (set_phone_numbers r (l1 ++ l2)) ())
  ∧ ((∀ y, y ∈ phone_numbers r → oid y ≠ oid p) →
     remove_phone_number r p = Raises r ValueError)
  ∧ (∀ l1 x l2,
       email_addresses r = l1 ++ x :: l2 → oid x = oid p →
       (∀ y, y ∈ l1 → oid y ≠ oid p) →
       remove_email_address r p = Returns (set_email_addresses r (l1 ++ l2)) ())
  ∧ ((∀ y, y ∈ email_addresses r → oid y ≠ oid p) →
     remove_email_address r p = Raises r ValueError).
Proof.
  unfold remove_phone_number, remove_email_address.
  split; [|split; [|split]].
  - intros l1 x l2 -> Hx Hl1. by rewrite list_remove_first.
  - intros Hnone. by rewrite list_remove_absent.
  - intros l1 x l2 -> Hx Hl1. by rewrite list_remove_first.
  - intros Hnone. by rewrite list_remove_absent.
Qed.

Lemma remove_field_by_identity_witness :
  remove_phone_number Ex.jan3 Ex.phone_b
    = Returns (set_phone_numbers Ex.jan3 [Ex.phone_a; Ex.phone_c]) ()
  ∧ remove_phone_number Ex.jan Ex.phone_b = Raises Ex.jan ValueError
  ∧ remove_email_address Ex.jan_mail Ex.mail_a
    = Returns (set_email_addresses Ex.jan_mail []) ()
  ∧ remove_email_address Ex.jan_mail Ex.mail_b = Raises Ex.jan_mail ValueError.
Proof.
  split; [|split; [|split]].
  - apply (proj1 (remove_field_by_identity Ex.jan3 Ex.phone_b)
             [Ex.phone_a; Ex.phone_c] Ex.phone_b []).
    + reflexivity.
    + reflexivity.
    + apply Forall_forall. by_evaluation.
  - apply (proj1 (proj2 (remove_field_by_identity Ex.jan Ex.phone_b))).
    apply Forall_forall. by_evaluation.
  - apply (proj1 (proj2 (proj2 (remove_field_by_identity Ex.jan_mail Ex.mail_a)))
             [] Ex.mail_a []).
    + reflexivity.
    + reflexivity.
    + apply Forall_forall. by_evaluation.
  - apply (proj2 (proj2 (proj2 (remove_field_by_identity Ex.jan_mail Ex.mail_b)))).
    apply Forall_forall. by_evaluation.
Defined.

(** C8 as stated fails: the contact holds a phone number whose value is
    "111111111", yet removing a phone number with that value raises
    [ValueError] and removes nothing; and where two elements have the value,
    the element removed need not be the first of them. *)
Lemma remove_phone_number_not_by_value :
  (∃ x, x ∈ phone_numbers Ex.jan ∧ value x = value Ex.phone_b)
  ∧ remove_phone_number Ex.jan Ex.phone_b = Raises Ex.jan ValueError
  ∧ value Ex.phone_a = value Ex.phone_b
  ∧ remove_phone_number Ex.jan3 Ex.phone_b
    = Returns (set_phone_numbers Ex.jan3 [Ex.phone_a; Ex.phone_c]) ()
  ∧ (∃ x, x ∈ email_addresses Ex.jan_mail ∧ value x = value Ex.mail_b)
  ∧ remove_email_address Ex.jan_mail Ex.mail_b = Raises Ex.jan_mail ValueError.
Proof.
  split; [exists Ex.phone_a; split; [left|reflexivity]|].
  split; [reflexivity|]. split; [reflexivity|]. split; [reflexivity|].
  split; [exists Ex.mail_a; split; [left|reflexivity]|]. reflexivity.
Qed.

(** ** Notebook *)

(** C10.  For a title that is not in the notebook, [modify_note_content]
    and [delete_note] print the not-found line, raise nothing and leave the
    notebook exactly as it was. *)
Theorem notebook_miss_changes_nothing (nb : Notebook.t) (title : string)
    (c : note_body) :
  title ∉ dict_keys (Notebook.data nb) →
  Notebook.modify_note_content nb title c = (nb, NoteNotFound)
  ∧ Notebook.delete_note nb title = (nb, NoteNotFound).
Proof.
  intros Hmiss%dict_contains_false.
  unfold Notebook.modify_note_content, Notebook.delete_note.
  by rewrite Hmiss.
Qed.

Lemma notebook_miss_changes_nothing_witness :
  Notebook.modify_note_content Ex.notes_todo "diary" (BStr "rain")
    = (Ex.notes_todo, NoteNotFound)
  ∧ Notebook.delete_note Ex.notes_todo "diary" = (Ex.notes_todo, NoteNotFound).
Proof.
  apply (notebook_miss_changes_nothing Ex.notes_todo "diary" (BStr "rain")).
  by_evaluation.
Defined.

(** A title that is present is handled by the other branch. *)
Lemma notebook_hit (nb : Notebook.t) (title : string) (c : note_body) :
  title ∈ dict_keys (Notebook.data nb) →
  Notebook.modify_note_content nb title c
    = ({| Notebook.data := dict_set (Notebook.data nb) title c |}, NoteUpdated)
  ∧ Notebook.delete_note nb title
    = ({| Notebook.data := dict_del (Notebook.data nb) title |}, NoteDeleted).
Proof.
  intros Hhit%dict_contains_true.
  unfold Notebook.modify_note_content, Notebook.delete_note.
  by rewrite Hhit.
Qed.

(** ** Tag *)

(** A note whose body is a string cannot be tagged: whatever the text, the
    call raises [TypeError] and the notebook stays as it was. *)
Lemma tag_note_str_body (nb : Notebook.t) (title s tag : string) :
  dict_get (Notebook.data nb) title = Some (BStr s) →
  Tag.tag_note nb title tag = Raises nb TypeError.
Proof.
  intros Hget. unfold Tag.tag_note. rewrite Hget. simpl.
  by destruct (Str.contains "tags" s).
Qed.

(** A [dict] body without ["tags"] gets the one-element list. *)
Lemma tag_note_dict_first (nb : Notebook.t) (title tag : string) d :
  dict_get (Notebook.data nb) title = Some (BDict d) →
  dict_get d "tags" = None →
  ∃ nb', Tag.tag_note nb title tag = Returns nb' TagAdded
         ∧ Tag.tags_of <$> dict_get (Notebook.data nb') title = Some (Some [tag]).
Proof.
  intros Hget Hnone. unfold Tag.tag_note. rewrite Hget. simpl. rewrite Hnone.
  eexists. split; [done|]. simpl.
  rewrite dict_get_set_eq. simpl. by rewrite dict_get_set_eq.
Qed.

(** A [dict] body with a ["tags"] list gets the tag appended, duplicates
    included. *)
Lemma tag_note_dict_append (nb : Notebook.t) (title tag : string) d l :
  dict_get (Notebook.data nb) title = Some (BDict d) →
  dict_get d "tags" = Some (VList l) →
  ∃ nb', Tag.tag_note nb title tag = Returns nb' TagAdded
         ∧ Tag.tags_of <$> dict_get (Notebook.data nb') title
           = Some (Some (l ++ [tag])).
Proof.
  intros Hget Hl. unfold Tag.tag_note. rewrite Hget. simpl. rewrite Hl.
  eexists. split; [done|]. simpl.
  rewrite dict_get_set_eq. simpl. by rewrite dict_get_set_eq.
Qed.

(** C6, the code at the failing input.  The note "todo" has the plain
    string body "buy milk"; [tag_note("todo", "work")] raises [TypeError]
    and the body is still the string, with no tags.  (A [dict] body is
    handled as the claim says: see [tag_note_dict_first] and
    [tag_note_dict_append].) *)
Theorem tag_note_plain_string_raises :
  dict_get (Notebook.data Ex.notes_todo) "todo" = Some (BStr "buy milk")
  ∧ Tag.tag_note Ex.notes_todo "todo" "work" = Raises Ex.notes_todo TypeError
  ∧ Tag.tags_of
      <$> dict_get (Notebook.data (state_of (Tag.tag_note Ex.notes_todo "todo" "work")))
            "todo"
    = Some None.
Proof. vm_compute. repeat split; reflexivity. Qed.

Example tag_note_dict_examples :
  Tag.tags_of
    <$> dict_get (Notebook.data (state_of (Tag.tag_note Ex.notes_dict "todo" "work")))
          "todo"
  = Some (Some ["work"])
  ∧ Tag.tags_of
      <$> dict_get (Notebook.data (state_of (Tag.tag_note Ex.notes_tagged "todo" "work")))
            "todo"
    = Some (Some ["work"; "work"]).
Proof. vm_compute. split; reflexivity. Qed.

(** ** AddressBook: loading *)

Lemma load_data_spec b d :
  load b (FileData d)
  = Returns {| data := dict_update (data b) d;
               next_id := match py_max_list (dict_keys (dict_update (data b) d)) with
                          | Some m => m + 1
                          | None => next_id b
                          end;
               free_ids := free_ids b |} ().
Proof. reflexivity. Qed.

Lemma dict_keys_nil_iff (d : list (Z * RecordObj)) : dict_keys d = [] ↔ d = [].
Proof. destruct d; simpl; naive_solver. Qed.

(** C7, as the code has it.  [load_address_book] returns a book that holds
    the mapping of the file, with [next_id = 1] and no free ids, whatever
    the keys are.  [AddressBook.load] merges the mapping of the file into
    the book and leaves [free_ids] alone; [next_id] becomes the greatest
    live key plus one when the book is not empty afterwards and is left
    alone otherwise.  On a newly constructed book [AddressBook.load] thus
    gives [next_id = max(live keys) + 1], or 1 for an empty book, and no
    free ids. *)
Theorem load_next_id_and_free_ids :
  (∀ d, data (load_address_book (FileData d)) = d
        ∧ next_id (load_address_book (FileData d)) = 1
        ∧ free_ids (load_address_book (FileData d)) = ∅)
  ∧ (∀ b d, ∃ b',
        load b (FileData d) = Returns b' ()
        ∧ data b' = dict_update (data b) d
        ∧ free_ids b' = free_ids b
        ∧ (data b' ≠ [] →
           ∃ m, is_max_list (dict_keys (data b')) m ∧ next_id b' = m + 1)
        ∧ (data b' = [] → next_id b' = next_id b))
  ∧ (∀ d, ∃ b',
        load AddressBook_init (FileData d) = Returns b' ()
        ∧ free_ids b' = ∅
        ∧ (data b' ≠ [] →
           ∃ m, is_max_list (dict_keys (data b')) m ∧ next_id b' = m + 1)
        ∧ (data b' = [] → next_id b' = 1)).
Proof.
  assert (∀ b d, ∃ b',
        load b (FileData d) = Returns b' ()
        ∧ data b' = dict_update (data b) d
        ∧ free_ids b' = free_ids b
        ∧ (data b' ≠ [] →
           ∃ m, is_max_list (dict_keys (data b')) m ∧ next_id b' = m + 1)
        ∧ (data b' = [] → next_id b' = next_id b)) as Hload.
  { intros b d. eexists. split; [apply load_data_spec|]. simpl.
    split; [done|]. split; [done|].
    destruct (py_max_list (dict_keys (dict_update (data b) d))) as [m|] eqn:E.
    - split.
      + intros _. exists m. split; [by apply py_max_list_spec|done].
      + intros Hnil. rewrite Hnil in E. done.
    - apply py_max_list_None, dict_keys_nil_iff in E. split; [done|done]. }
  split; [done|]. split; [done|].
  intros d. destruct (Hload AddressBook_init d) as (b' & H1 & _ & H2 & H3 & H4).
  exists b'. done.
Qed.

Lemma load_next_id_and_free_ids_witness :
  ∃ b', load AddressBook_init Ex.file12 = Returns b' ()
        ∧ free_ids b' = ∅
        ∧ (∃ m, is_max_list (dict_keys (data b')) m ∧ next_id b' = m + 1)
        ∧ next_id b' = 3.
Proof.
  destruct load_next_id_and_free_ids as (_ & _ & Hnew).
  destruct (Hnew [(1, set_id Ex.R1 1); (2, set_id Ex.R2 2)])
    as (b' & Hl & Hf & Hmax & _).
  exists b'. split; [exact Hl|]. split; [exact Hf|].
  assert (b' = {| data := [(1, set_id Ex.R1 1); (2, set_id Ex.R2 2)];
                  next_id := 3; free_ids := ∅ |}) as ->.
  { vm_compute in Hl. by injection Hl as <-. }
  split; [|reflexivity].
  apply Hmax. vm_compute. discriminate.
Defined.

(** C7 as stated fails.  [load_address_book] on a file with the keys 1 and 2
    returns a book with [next_id = 1], not 3; [AddressBook.load] on a book
    with a free id keeps that id free, and on an empty book whose [next_id]
    is 2 it leaves [next_id] at 2 when the file holds no contact. *)
Lemma load_does_not_reset :
  (is_max_list (dict_keys (data (load_address_book Ex.file12))) 2
   ∧ next_id (load_address_book Ex.file12) = 1)
  ∧ (∃ b', load Ex.book_used Ex.file12 = Returns b' () ∧ free_ids b' ≠ ∅)
  ∧ (∃ b', load Ex.book_used Ex.file_empty = Returns b' ()
           ∧ data b' = [] ∧ next_id b' = 2).
Proof.
  split; [split; [|reflexivity]|split].
  - split; [right; left|].
    intros x Hx. simpl in Hx.
    apply elem_of_cons in Hx as [->|Hx]; [lia|].
    apply list_elem_of_singleton in Hx as ->. lia.
  - eexists. split; [reflexivity|]. simpl.
    by_evaluation.
  - eexists. split; [reflexivity|]. split; reflexivity.
Qed.

(** ** Record: days to the next birthday *)

(** C4, as the code has it.  For a record without birthdate,
    [days_to_birthdate] returns the string "Brak daty urodzenia", whatever
    the clock says. *)
Theorem days_to_birthdate_unset (today : datetime.t) (r : RecordObj) :
  birthdate r = None →
  days_to_birthdate today r = inr (PyStr "Brak daty urodzenia").
Proof. intros Hb. unfold days_to_birthdate. by rewrite Hb. Qed.

Lemma days_to_birthdate_unset_witness :
  days_to_birthdate (Ex.clock 2024 3 1 0) Ex.R1 = inr (PyStr "Brak daty urodzenia").
Proof.
  apply (days_to_birthdate_unset (Ex.clock 2024 3 1 0) Ex.R1). reflexivity.
Defined.

(** C4 as stated fails: the record has no birthdate and the call does not
    return [None]. *)
Lemma days_to_birthdate_unset_not_None :
  birthdate Ex.R1 = None
  ∧ days_to_birthdate (Ex.clock 2024 3 1 0) Ex.R1 ≠ inr PyNone.
Proof. split; [reflexivity|]. vm_compute. discriminate. Qed.

(** No call returns [None], with or without birthdate. *)
Lemma days_to_birthdate_never_None today r :
  days_to_birthdate today r ≠ inr PyNone.
Proof.
  unfold days_to_birthdate.
  repeat (case_match; try discriminate).
Qed.

(** The birthday window of the driver, with the clock at midnight. *)
Example days_to_birthdate_window :
  days_to_birthdate (Ex.clock 2024 3 1 0) (Ex.born "2000-03-07") = inr (PyInt 6)
  ∧ days_to_birthdate (Ex.clock 2024 3 1 0) (Ex.born "2000-03-08") = inr (PyInt 7)
  ∧ days_to_birthdate (Ex.clock 2024 3 7 0) (Ex.born "2000-03-07") = inr (PyInt 0).
Proof. vm_compute. repeat split; reflexivity. Qed.

(** C5, the code at the failing inputs.  A birthdate on 29 February makes
    the call raise [ValueError] in a year that is not a leap year (and in a
    leap year once the day has passed), so there is no number at all.  With
    the clock at ten in the morning, the call returns 364 on the birthday
    itself and 0 on the day before it.  (With the clock at midnight and any
    other birthdate the claim holds: [days_to_birthdate_at_midnight].) *)
Theorem days_to_birthdate_failing_inputs :
  days_to_birthdate (Ex.clock 2023 3 1 0) (Ex.born "2000-02-29") = inl ValueError
  ∧ days_to_birthdate (Ex.clock 2024 3 1 0) (Ex.born "2000-02-29") = inl ValueError
  ∧ days_to_birthdate (Ex.clock 2024 3 7 10) (Ex.born "2000-03-07") = inr (PyInt 364)
  ∧ days_to_birthdate (Ex.clock 2024 3 6 10) (Ex.born "2000-03-07") = inr (PyInt 0).
Proof. vm_compute. repeat split; reflexivity. Qed.

(** ** PhoneNumber: validation *)

Lemma append_nil_l (t : string) : (EmptyString ++ t)%string = t.
Proof. reflexivity. Qed.

Lemma append_cons c (s t : string) :
  (String c s ++ t)%string = String c (s ++ t)%string.
Proof. reflexivity. Qed.

Lemma append_nil_r (s : string) : (s ++ EmptyString)%string = s.
Proof.
  induction s as [|c s IH]; [done|]. by rewrite append_cons, IH.
Qed.

Lemma digits_spec n s rest :
  Re.digits n s = Some rest ↔
  ∃ d, String.length d = n
       ∧ Forall (λ c, Str.is_digit c = true) (list_ascii_of_string d)
       ∧ s = (d ++ rest)%string.
Proof.
  revert s. induction n as [|n IH]; intros s; simpl.
  - split.
    + intros [= ->]. exists EmptyString. by repeat split.
    + intros (d & Hlen & _ & ->). destruct d; [done|discriminate].
  - destruct s as [|c s]; simpl.
    + split; [done|]. intros (d & Hlen & _ & Hs). destruct d; discriminate.
    + destruct (Str.is_digit c) eqn:Hc.
      * rewrite IH. split.
        -- intros (d & Hlen & Hd & ->). exists (String c d). simpl.
           split; [by rewrite Hlen|]. split; [by constructor|done].
        -- intros (d & Hlen & Hd & Hs). destruct d as [|c' d]; [discriminate|].
           rewrite append_cons in Hs. simpl in *.
           injection Hs as -> ->. injection Hlen as Hlen.
           apply Forall_cons in Hd as [_ Hd]. by exists d.
      * split; [done|]. intros (d & Hlen & Hd & Hs).
        destruct d as [|c' d]; [discriminate|].
        rewrite append_cons in Hs. simpl in *. injection Hs as -> ->.
        apply Forall_cons in Hd as [Hc' _]. congruence.
Qed.

Lemma dollar_spec rest :
  Re.dollar rest = true ↔ rest = EmptyString ∨ rest = String Re.newline EmptyString.
Proof.
  destruct rest as [|c [|c' rest]]; simpl.
  - naive_solver.
  - rewrite bool_decide_eq_true. naive_solver.
  - naive_solver.
Qed.

(** What [validate_phone] accepts: nine digits, or nine digits and a final
    line feed. *)
Lemma validate_phone_spec s :
  validate_phone s = true ↔
  ∃ d, nine_digits d ∧ (s = d ∨ s = (d ++ String Re.newline EmptyString)%string).
Proof.
  unfold validate_phone, nine_digits. split.
  - destruct (Re.digits 9 s) as [rest|] eqn:E; [|done].
    apply digits_spec in E as (d & Hlen & Hd & ->).
    intros [-> | ->]%dollar_spec; exists d.
    + split; [done|]. left. apply append_nil_r.
    + split; [done|]. by right.
  - intros (d & [Hlen Hd] & Hs).
    assert (∃ rest, s = (d ++ rest)%string ∧ Re.dollar rest = true)
      as (rest & -> & Hrest).
    { destruct Hs as [-> | ->].
      - exists EmptyString. split; [|done]. symmetry. apply append_nil_r.
      - eexists. split; [done|]. reflexivity. }
    assert (Re.digits 9 (d ++ rest) = Some rest) as ->; [|done].
    apply digits_spec. by exists d.
Qed.


(** The phone numbers of the validation scenario. *)
Example validate_phone_scenario :
  validate_phone "123456789" = true
  ∧ validate_phone "12345678" = false
  ∧ validate_phone "1234567890" = false
  ∧ validate_phone "12345678a" = false.
Proof. vm_compute. repeat split; reflexivity. Qed.

(** C3, the code at the failing input.  The string of the nine digits
    "123456789" followed by a line feed has ten characters, so it does not
    consist of exactly nine digits; [validate_phone] accepts it and the
    constructor returns a [PhoneNumber] with that value. *)
Theorem validate_phone_accepts_trailing_newline :
  String.length Ex.digits_newline = 10%nat
  ∧ ¬ nine_digits Ex.digits_newline
  ∧ validate_phone Ex.digits_newline = true
  ∧ PhoneNumber 7 Ex.digits_newline
    = inr {| oid := 7; value := Ex.digits_newline |}.
Proof.
  split; [reflexivity|]. split; [|split; reflexivity].
  intros [Hlen _]. vm_compute in Hlen. discriminate.
Qed.

(** ** AddressBook: search *)

Lemma prefix_spec sub s :
  String.prefix sub s = true ↔ ∃ post, s = (sub ++ post)%string.
Proof.
  revert s. induction sub as [|a sub IH]; intros s.
  - destruct s; simpl; (split; [intros _; by eexists|done]).
  - destruct s as [|b s]; simpl.
    + split; [done|]. intros [post Hs]. rewrite append_cons in Hs. discriminate.
    + destruct (ascii_dec a b) as [->|Hne].
      * rewrite IH. split; intros [post Hs]; exists post.
        -- by rewrite append_cons, Hs.
        -- rewrite append_cons in Hs. by injection Hs.
      * split; [done|]. intros [post Hs]. rewrite append_cons in Hs.
        injection Hs as Hb _. congruence.
Qed.

Lemma contains_unfold sub s :
  Str.contains sub s
  = String.prefix sub s
    || match s with
       | EmptyString => false
       | String _ s' => Str.contains sub s'
       end.
Proof. by destruct s. Qed.

(** [Str.contains] decides the substring relation. *)
Lemma contains_spec sub s : Str.contains sub s = true ↔ is_substring sub s.
Proof.
  unfold is_substring. split.
  - induction s as [|c s IH]; rewrite contains_unfold, orb_true_iff.
    + intros [Hp|Hf]; [|done]. apply prefix_spec in Hp as [post ->].
      by exists EmptyString, post.
    + intros [Hp|Hc].
      * apply prefix_spec in Hp as [post ->]. by exists EmptyString, post.
      * destruct (IH Hc) as (pre & post & ->). by exists (String c pre), post.
  - intros (pre & post & ->). induction pre as [|c pre IH].
    + rewrite append_nil_l, contains_unfold.
      assert (String.prefix sub (sub ++ post) = true) as ->
        by (apply prefix_spec; by eexists).
      done.
    + rewrite append_cons, contains_unfold, IH. apply orb_true_r.
Qed.

Lemma scan_fields_spec term r fs found :
  scan_fields term r fs found
  = found ++ (if existsb (λ f, Str.contains term (value f)) fs then [r] else []).
Proof.
  induction fs as [|f fs IH]; simpl.
  - by rewrite app_nil_r.
  - by destruct (Str.contains term (value f)).
Qed.

Lemma find_step_spec term found r :
  find_step term found r = found ++ hits term r.
Proof.
  unfold find_step, hits, name_matches, phone_matches, email_matches.
  destruct (Str.contains (Str.lower term) (Str.lower (value (name r)))); [done|].
  by rewrite !scan_fields_spec, app_assoc.
Qed.

Lemma foldl_find_step term l : ∀ found,
  foldl (find_step term) found l = found ++ (l ≫= hits term).
Proof.
  induction l as [|r l IH]; intros found; simpl.
  - by rewrite app_nil_r.
  - by rewrite IH, find_step_spec, app_assoc.
Qed.

(** The result lists, record by record in the order of insertion, what each
    record contributes. *)
Lemma find_record_spec b term :
  find_record b term = dict_values (data b) ≫= hits term.
Proof. unfold find_record. by rewrite foldl_find_step. Qed.

Lemma elem_of_hits term r x :
  x ∈ hits term r ↔ x = r ∧ matches term r = true.
Proof.
  unfold hits, matches.
  destruct (name_matches term r), (phone_matches term r), (email_matches term r);
    simpl; rewrite ?elem_of_cons, ?elem_of_nil; naive_solver.
Qed.

(** A record is in the result exactly when it is in the book and matches. *)
Lemma find_record_elem b term r :
  r ∈ find_record b term ↔ r ∈ dict_values (data b) ∧ matches term r = true.
Proof.
  rewrite find_record_spec, list_elem_of_bind. split.
  - intros (y & [-> Hm]%elem_of_hits & Hy). done.
  - intros [Hr Hm]. exists r. split; [|done]. by apply elem_of_hits.
Qed.

(** What [matches] means, in terms of substrings. *)
Lemma matches_spec term r :
  matches term r = true ↔
  is_substring (Str.lower term) (Str.lower (value (name r)))
  ∨ (∃ p, p ∈ phone_numbers r ∧ is_substring term (value p))
  ∨ (∃ e, e ∈ email_addresses r ∧ is_substring term (value e)).
Proof.
  unfold matches, name_matches, phone_matches, email_matches.
  rewrite !orb_true_iff, !existsb_exists, contains_spec.
  setoid_rewrite contains_spec. setoid_rewrite <- list_elem_of_In.
  naive_solver.
Qed.

(** Without a record that matches by a phone number and by an email address
    but not by its name, the result is the matching records, once each. *)
Lemma find_record_filter b term :
  (∀ r, r ∈ dict_values (data b) →
        name_matches term r = true
        ∨ phone_matches term r = false ∨ email_matches term r = false) →
  find_record b term = filter (λ r, matches term r = true) (dict_values (data b)).
Proof.
  rewrite find_record_spec.
  induction (dict_values (data b)) as [|r l IH]; intros Hl; [done|].
  rewrite bind_cons, filter_cons, IH by (intros x Hx; apply Hl; by right).
  specialize (Hl r (list_elem_of_here _ _)).
  unfold hits, matches in *.
  destruct (name_matches term r), (phone_matches term r), (email_matches term r);
    simpl in *; try (case_decide; try done); naive_solver.
Qed.

(** The search scenario: two contacts, three terms. *)
Example find_record_scenario :
  find_record Ex.book_s4 "kow" = [set_id Ex.kowalski 1]
  ∧ find_record Ex.book_s4 "602" = [set_id Ex.nowak 2]
  ∧ find_record Ex.book_s4 "@" = [set_id Ex.kowalski 1; set_id Ex.nowak 2].
Proof. vm_compute. repeat split; reflexivity. Qed.

(** C2, the code at the failing input.  The book holds one contact, "Bob",
    with the phone number "123456789" and the email address "a1@x.pl".  The
    term "1" is not in the name but is in both the phone number and the
    email address, and [find_record] returns the contact twice. *)
Theorem find_record_returns_contact_twice :
  dict_values (data Ex.book_bob) = [set_id Ex.bob 1]
  ∧ find_record Ex.book_bob "1" = [set_id Ex.bob 1; set_id Ex.bob 1].
Proof. vm_compute. split; reflexivity. Qed.

(** ** The calendar, with the clock at midnight *)

Lemma gt_midnight y m d tm td :
  datetime.gt (datetime.mk y tm td 0 0 0 0) (datetime.mk y m d 0 0 0 0)
  = (m <? tm) || ((tm =? m) && (d <? td)).
Proof.
  unfold datetime.gt, datetime.fields. simpl.
  rewrite Z.ltb_irrefl, Z.eqb_refl. simpl.
  destruct (m <? tm), (tm =? m), (d <? td), (td =? d); reflexivity.
Qed.

Lemma sub_days_midnight y1 m1 d1 y2 m2 d2 :
  datetime.sub_days (datetime.mk y1 m1 d1 0 0 0 0) (datetime.mk y2 m2 d2 0 0 0 0)
  = datetime.ymd2ord y1 m1 d1 - datetime.ymd2ord y2 m2 d2.
Proof.
  unfold datetime.sub_days, datetime.timedelta_days, datetime.toordinal. simpl.
  change ((0 + 0 * 60 + 0 * 3600 - (0 + 0 * 60 + 0 * 3600) + (0 - 0) / 1000000)
          / 86400) with 0.
  lia.
Qed.

Lemma div_step (y k : Z) :
  0 < k → y / k = (y - 1) / k + (if y mod k =? 0 then 1 else 0).
Proof.
  intros Hk. destruct (y mod k =? 0) eqn:E.
  - apply Z.eqb_eq in E. Z.div_mod_to_equations. nia.
  - apply Z.eqb_neq in E. Z.div_mod_to_equations. nia.
Qed.

Lemma days_before_year_succ y :
  datetime.days_before_year (y + 1)
  = datetime.days_before_year y + 365 + (if datetime.is_leap y then 1 else 0).
Proof.
  unfold datetime.days_before_year, datetime.is_leap. cbv zeta.
  replace (y + 1 - 1) with y by lia.
  rewrite (div_step y 4), (div_step y 100), (div_step y 400) by lia.
  destruct (y mod 4 =? 0) eqn:H4, (y mod 100 =? 0) eqn:H100,
    (y mod 400 =? 0) eqn:H400; simpl; try lia;
    rewrite ?Z.eqb_eq, ?Z.eqb_neq in *; exfalso; Z.div_mod_to_equations; lia.
Qed.

Lemma check_date_fields_spec y m d :
  datetime.check_date_fields y m d = true ↔
  1 ≤ y ≤ 9999 ∧ 1 ≤ m ≤ 12 ∧ 1 ≤ d ≤ datetime.days_in_month y m.
Proof.
  unfold datetime.check_date_fields, datetime.MINYEAR, datetime.MAXYEAR.
  rewrite !andb_true_iff, !Z.leb_le. lia.
Qed.

Ltac month_cases m :=
  let H := fresh "Hm" in
  assert (m = 1 ∨ m = 2 ∨ m = 3 ∨ m = 4 ∨ m = 5 ∨ m = 6 ∨ m = 7 ∨ m = 8
          ∨ m = 9 ∨ m = 10 ∨ m = 11 ∨ m = 12) as H by lia;
  destruct H as [->|[->|[->|[->|[->|[->|[->|[->|[->|[->|[->| ->]]]]]]]]]]].

(** A day of the year that is not 29 February exists in every year. *)
Lemma check_date_fields_other_year y y' m d :
  datetime.check_date_fields y m d = true →
  ¬ (m = 2 ∧ d = 29) →
  1 ≤ y' ≤ 9999 →
  datetime.check_date_fields y' m d = true.
Proof.
  rewrite !check_date_fields_spec. intros (Hy & Hm & Hd) Hfeb Hy'.
  split; [done|]. split; [done|].
  month_cases m; unfold datetime.days_in_month in *; simpl in *;
    destruct (datetime.is_leap y), (datetime.is_leap y'); lia.
Qed.

Lemma strptime_midnight s a :
  datetime.strptime s = inr a →
  Str.truthy s = true
  ∧ a = datetime.mk (datetime.year a) (datetime.month a) (datetime.day a) 0 0 0 0
  ∧ datetime.check_date_fields (datetime.year a) (datetime.month a) (datetime.day a)
    = true.
Proof.
  intros Hs. split; [by destruct s|].
  unfold datetime.strptime in Hs.
  destruct (datetime.parse_ymd s) as [[[y m] d]|]; [|done].
  destruct (datetime.check_date_fields y m d) eqn:E; [|done].
  by injection Hs as <-.
Qed.

(** With the clock at midnight and a birthdate that is not 29 February, the
    call returns a number between 0 and 365, and 0 exactly on the birthday. *)
Lemma days_to_birthdate_at_midnight r b bday ty tm td :
  birthdate r = Some b →
  datetime.strptime (value b) = inr bday →
  ¬ (datetime.month bday = 2 ∧ datetime.day bday = 29) →
  datetime.check_date_fields ty tm td = true →
  ty < datetime.MAXYEAR →
  ∃ n, days_to_birthdate (datetime.mk ty tm td 0 0 0 0) r = inr (PyInt n)
       ∧ 0 ≤ n ≤ 365
       ∧ (n = 0 ↔ tm = datetime.month bday ∧ td = datetime.day bday).
Proof.
  intros Hb Hs Hfeb Ht Hty.
  destruct (strptime_midnight _ _ Hs) as (Htruthy & Hbday & Hvalid).
  destruct bday as [y m d ? ? ? ?]. simpl in *. injection Hbday as -> -> -> ->.
  unfold datetime.MAXYEAR in Hty.
  pose proof Ht as (Hty' & Htm & Htd)%check_date_fields_spec.
  assert (datetime.check_date_fields ty m d = true) as Hnow
    by (eapply check_date_fields_other_year; [done..|lia]).
  assert (datetime.check_date_fields (ty + 1) m d = true) as Hnext
    by (eapply check_date_fields_other_year; [done..|lia]).
  pose proof Hnow as (_ & Hm & Hd)%check_date_fields_spec.
  pose proof Hnext as (_ & _ & Hd')%check_date_fields_spec.
  unfold days_to_birthdate. rewrite Hb, Htruthy, Hs. simpl.
  unfold datetime.replace_year at 1. simpl. rewrite Hnow, gt_midnight.
  destruct ((m <? tm) || (tm =? m) && (d <? td)) eqn:Hgt.
  - unfold datetime.replace_year. simpl. rewrite Hnext.
    eexists. split; [reflexivity|].
    rewrite sub_days_midnight. unfold datetime.ymd2ord.
    rewrite days_before_year_succ.
    apply orb_true_iff in Hgt.
    rewrite andb_true_iff, !Z.ltb_lt, Z.eqb_eq in Hgt.
    month_cases m; month_cases tm;
      unfold datetime.days_in_month, datetime.days_before_month in *; simpl in *;
      destruct (datetime.is_leap ty), (datetime.is_leap (ty + 1)); lia.
  - eexists. split; [reflexivity|].
    rewrite sub_days_midnight. unfold datetime.ymd2ord.
    apply orb_false_iff in Hgt.
    rewrite andb_false_iff, !Z.ltb_ge, Z.eqb_neq in Hgt.
    month_cases m; month_cases tm;
      unfold datetime.days_in_month, datetime.days_before_month in *; simpl in *;
      destruct (datetime.is_leap ty); lia.
Qed.

(** ** The driver: phone numbers typed on one line *)





Example read_phone_numbers_example :
  value <$> phone_numbers
              (read_phone_numbers 70 Ex.R1 " 501501501,12345, 602602602 ,,abc").1
  = ["501501501"; "602602602"].
Proof. vm_compute. reflexivity. Qed.

(** ** AddressBook: the two searches *)

Lemma find_records_by_name_filter b n :
  find_records_by_name b n
  = filter (λ item, name_matches n item.2 = true) (data b).
Proof.
  unfold find_records_by_name, name_matches.
  assert (∀ l acc,
    foldl (λ matching_records (item : Z * RecordObj),
             if Str.contains (Str.lower n) (Str.lower (value (name item.2)))
             then matching_records ++ [item] else matching_records) acc l
    = acc ++ filter (λ item : Z * RecordObj,
                       Str.contains (Str.lower n) (Str.lower (value (name item.2)))
                       = true) l) as H.
  { induction l as [|item l IH]; intros acc; simpl.
    - by rewrite app_nil_r.
    - rewrite IH, filter_cons.
      destruct (Str.contains (Str.lower n) (Str.lower (value (name item.2)))).
      + rewrite decide_True by done. by rewrite <- app_assoc.
      + by rewrite decide_False by done. }
  by rewrite H.
Qed.

(** X2.  [find_records_by_name] returns, in the order of insertion and
    once each, the stored (id, record) pairs whose name contains the term,
    case folded on both sides; each record it returns is also returned by
    [find_record] for the same term. *)
Theorem find_records_by_name_sound_complete b n :
  (∀ k r, (k, r) ∈ find_records_by_name b n ↔
          (k, r) ∈ data b
          ∧ is_substring (Str.lower n) (Str.lower (value (name r))))
  ∧ sublist (find_records_by_name b n) (data b)
  ∧ (∀ k r, (k, r) ∈ find_records_by_name b n → r ∈ find_record b n).
Proof.
  rewrite find_records_by_name_filter.
  assert (∀ k r,
    (k, r) ∈ filter (λ item : Z * RecordObj, name_matches n item.2 = true) (data b)
    ↔ (k, r) ∈ data b ∧ is_substring (Str.lower n) (Str.lower (value (name r))))
    as Hiff.
  { intros k r. rewrite list_elem_of_filter. simpl.
    unfold name_matches. rewrite contains_spec. naive_solver. }
  split; [done|]. split; [apply sublist_filter|].
  intros k r [Hin Hsub]%Hiff. apply find_record_elem. split.
  - unfold dict_values. by apply (list_elem_of_fmap_2 snd _ (k, r)).
  - apply matches_spec. by left.
Qed.

Lemma find_records_by_name_sound_complete_witness :
  set_id Ex.kowalski 1 ∈ find_record Ex.book_s4 "kow".
Proof.
  apply (proj2 (proj2 (find_records_by_name_sound_complete Ex.book_s4 "kow"))
           1 (set_id Ex.kowalski 1)).
  vm_compute. left.
Defined.

Lemma contains_empty s : Str.contains EmptyString s = true.
Proof. rewrite contains_unfold. by destruct s. Qed.

(** X3.  With the empty search term, [find_record] returns every record of
    the book once, in the order of insertion, and [find_records_by_name]
    returns every stored pair. *)
Theorem empty_term_finds_everything b :
  find_record b EmptyString = dict_values (data b)
  ∧ find_records_by_name b EmptyString = data b.
Proof.
  split.
  - rewrite find_record_spec. unfold dict_values.
    induction (data b) as [|[k r] l IH]; [done|].
    rewrite fmap_cons, bind_cons, IH. unfold hits, name_matches. simpl.
    by rewrite contains_empty.
  - rewrite find_records_by_name_filter.
    induction (data b) as [|[k r] l IH]; [done|].
    rewrite filter_cons_True, IH; [done|].
    unfold name_matches. simpl. apply contains_empty.
Qed.

(** X4.  A record is in the result of [find_record] exactly when it is
    stored in the book and the term occurs in its name (both case folded),
    in the value of one of its phone numbers, or in the value of one of its
    email addresses. *)
Theorem find_record_sound_complete b term r :
  r ∈ find_record b term ↔
  r ∈ dict_values (data b)
  ∧ (is_substring (Str.lower term) (Str.lower (value (name r)))
     ∨ (∃ p, p ∈ phone_numbers r ∧ is_substring term (value p))
     ∨ (∃ e, e ∈ email_addresses r ∧ is_substring term (value e))).
Proof. by rewrite find_record_elem, matches_spec. Qed.

(** X5.  When no record of the book matches the term by a phone number and
    by an email address without matching it by its name, [find_record]
    returns the matching records once each, in the order of insertion. *)
Theorem find_record_once_each b term :
  (∀ r, r ∈ dict_values (data b) →
        name_matches term r = true
        ∨ phone_matches term r = false ∨ email_matches term r = false) →
  find_record b term = filter (λ r, matches term r = true) (dict_values (data b)).
Proof. apply find_record_filter. Qed.

Lemma find_record_once_each_witness :
  find_record Ex.book_s4 "@"
  = filter (λ r, matches "@" r = true) (dict_values (data Ex.book_s4)).
Proof.
  apply (find_record_once_each Ex.book_s4 "@").
  apply Forall_forall. by_evaluation.
Defined.

(** ** AddressBook: what inserts and deletes keep *)

Section dict_del_facts.
Context {K V : Type} `{EqDecision K}.
Implicit Types (d : list (K * V)) (k : K) (v : V).


Lemma dict_del_sublist d i : sublist (dict_del d i) d.
Proof.
  induction d as [|[k' v'] d IH]; simpl; [done|].
  destruct (decide (i = k')); [by apply sublist_cons|by apply sublist_skip].
Qed.

Lemma dict_keys_del_NoDup d i x :
  NoDup (dict_keys d) →
  x ∈ dict_keys (dict_del d i) ↔ x ∈ dict_keys d ∧ x ≠ i.
Proof.
  induction d as [|[k' v'] d IH]; simpl.
  - intros _. rewrite elem_of_nil. naive_solver.
  - rewrite NoDup_cons. intros [Hk' Hd].
    destruct (decide (i = k')) as [->|Hne]; simpl; rewrite !elem_of_cons.
    + split; [|naive_solver]. intros Hx. split; [by right|]. by intros ->.
    + rewrite (IH Hd). naive_solver.
Qed.

Lemma dict_del_NoDup d i : NoDup (dict_keys d) → NoDup (dict_keys (dict_del d i)).
Proof.
  intros Hd. eapply sublist_NoDup; [done|].
  unfold dict_keys. apply fmap_sublist, dict_del_sublist.
Qed.

Lemma dict_get_del_ne d i k : k ≠ i → dict_get (dict_del d i) k = dict_get d k.
Proof.
  intros Hne. induction d as [|[k' v'] d IH]; simpl; [done|].
  destruct (decide (i = k')) as [->|Hi]; simpl.
  - by rewrite decide_False.
  - by rewrite IH.
Qed.

Lemma dict_get_set_ne d i k v : k ≠ i → dict_get (dict_set d i v) k = dict_get d k.
Proof.
  intros Hne. induction d as [|[k' v'] d IH]; simpl.
  - by rewrite decide_False.
  - destruct (decide (i = k')) as [->|Hi]; simpl.
    + by rewrite !decide_False by done.
    + by rewrite IH.
Qed.

Lemma dict_keys_set_present d i v :
  i ∈ dict_keys d → dict_keys (dict_set d i v) = dict_keys d.
Proof.
  induction d as [|[k' v'] d IH]; simpl.
  - intros Hi. by apply not_elem_of_nil in Hi.
  - rewrite elem_of_cons. intros Hi.
    destruct (decide (i = k')) as [->|Hne]; simpl; [done|].
    rewrite IH; [done|naive_solver].
Qed.

Lemma dict_set_NoDup d i v : NoDup (dict_keys d) → NoDup (dict_keys (dict_set d i v)).
Proof.
  intros Hd. destruct (decide (i ∈ dict_keys d)) as [Hi|Hi].
  - by rewrite dict_keys_set_present.
  - rewrite dict_set_fresh by done. unfold dict_keys in *.
    rewrite fmap_app. apply NoDup_app. split; [done|]. simpl. split.
    + intros x Hx ->%list_elem_of_singleton. done.
    + apply NoDup_singleton.
Qed.

End dict_del_facts.






(** X7.  Deleting an id that is live in a book with distinct keys removes
    that binding, makes the id free, and leaves every other binding, the
    order of the remaining records and [next_id] as they were; deleting an
    id that is not live, or typing something that is not a number, changes
    nothing. *)
Theorem delete_record_by_id_effect b i :
  (NoDup (dict_keys (data b)) → i ∈ dict_keys (data b) →
   let b' := delete_record_by_id b (Some i) in
   (i ∉ dict_keys (data b'))
   ∧ i ∈ free_ids b'
   ∧ (∀ k, k ≠ i → dict_get (data b') k = dict_get (data b) k)
   ∧ (∀ k, k ≠ i → (k ∈ free_ids b' ↔ k ∈ free_ids b))
   ∧ sublist (data b') (data b)
   ∧ next_id b' = next_id b)
  ∧ (i ∉ dict_keys (data b) → delete_record_by_id b (Some i) = b)
  ∧ delete_record_by_id b None = b.
Proof.
  split; [|split; [|done]].
  - intros Hnd Hi b'. subst b'. unfold delete_record_by_id.
    rewrite (proj2 (dict_contains_true _ _) Hi). simpl.
    split; [|split; [|split; [|split; [|split]]]].
    + rewrite dict_keys_del_NoDup by done. naive_solver.
    + set_solver.
    + intros k Hk. by apply dict_get_del_ne.
    + intros k Hk. set_solver.
    + apply dict_del_sublist.
    + done.
  - intros Hi. unfold delete_record_by_id.
    by rewrite (proj2 (dict_contains_false _ _) Hi).
Qed.

Lemma delete_record_by_id_effect_witness :
  (2 ∉ dict_keys (data (delete_record_by_id Ex.book3 (Some 2))))
  ∧ delete_record_by_id Ex.book3 (Some 7) = Ex.book3.
Proof.
  destruct (delete_record_by_id_effect Ex.book3 2) as (Hhit & _ & _).
  destruct (delete_record_by_id_effect Ex.book3 7) as (_ & Hmiss & _).
  split.
  - apply Hhit; by_evaluation.
  - apply Hmiss. by_evaluation.
Defined.

(** X8.  Deleting a live id that is smaller than every free id and then
    inserting a record gives that record the deleted id. *)
Theorem delete_then_insert_reuses_id b i r :
  i ∈ dict_keys (data b) →
  (∀ x, x ∈ free_ids b → i < x) →
  id (add_record (delete_record_by_id b (Some i)) r).2 = Some i.
Proof.
  intros Hi Hmin. unfold delete_record_by_id.
  rewrite (proj2 (dict_contains_true _ _) Hi).
  set (b' := {| data := dict_del (data b) i; next_id := next_id b;
                free_ids := free_ids b ∪ {[i]} |}).
  destruct (add_record_cases b') as [[m Hm]|He].
  - rewrite (add_record_reuse _ _ _ Hm). simpl. f_equal.
    apply py_min_Some in Hm.
    apply (is_min_unique (free_ids b') m i Hm).
    split; [set_solver|]. simpl. intros x.
    rewrite elem_of_union, elem_of_singleton. intros [Hx| ->]; [|lia].
    specialize (Hmin x Hx). lia.
  - simpl in He. set_solver.
Qed.

Lemma delete_then_insert_reuses_id_witness :
  id (add_record (delete_record_by_id Ex.book3 (Some 2)) Ex.R4).2 = Some 2.
Proof.
  apply (delete_then_insert_reuses_id Ex.book3 2 Ex.R4).
  - by_evaluation.
  - intros x Hx. exfalso. revert Hx. by_evaluation.
Defined.

(** ** Loading *)

Lemma dict_update_get {K V : Type} `{EqDecision K} (other : list (K * V)) :
  ∀ (d : list (K * V)) (k : K),
  NoDup (dict_keys other) →
  dict_get (dict_update d other) k
  = match dict_get other k with
    | Some v => Some v
    | None => dict_get d k
    end.
Proof.
  unfold dict_update.
  induction other as [|[k0 v0] other IH]; intros d k Hnd; simpl; [done|].
  simpl in Hnd. apply NoDup_cons in Hnd as [Hk0 Hnd].
  rewrite (IH _ _ Hnd).
  destruct (decide (k = k0)) as [->|Hne].
  - rewrite (proj2 (dict_get_None other k0) Hk0). apply dict_get_set_eq.
  - by rewrite dict_get_set_ne.
Qed.

Lemma dict_update_keys {K V : Type} `{EqDecision K} (other : list (K * V)) :
  ∀ (d : list (K * V)) (k : K),
  k ∈ dict_keys (dict_update d other) ↔ k ∈ dict_keys d ∨ k ∈ dict_keys other.
Proof.
  unfold dict_update.
  induction other as [|[k0 v0] other IH]; intros d k; simpl.
  - rewrite elem_of_nil. naive_solver.
  - rewrite IH, dict_keys_set, elem_of_cons. naive_solver.
Qed.

(** X9.  [AddressBook.load] of a file with distinct keys merges it into the
    book: an id of the file reads as in the file, any other id reads as
    before, and afterwards every live id is below [next_id].  When the book
    had no free ids, the next insert receives exactly [next_id].  A missing
    file leaves the book untouched; a corrupt file raises and leaves the
    book untouched. *)
Theorem load_merges_file b d :
  (NoDup (dict_keys d) →
   ∃ b', load b (FileData d) = Returns b' ()
         ∧ (∀ k, dict_get (data b') k
                 = match dict_get d k with
                   | Some r => Some r
                   | None => dict_get (data b) k
                   end)
         ∧ (∀ k, k ∈ dict_keys (data b') ↔ k ∈ dict_keys (data b) ∨ k ∈ dict_keys d)
         ∧ (∀ k, k ∈ dict_keys (data b') → k < next_id b')
         ∧ (free_ids b = ∅ → ∀ r, id (add_record b' r).2 = Some (next_id b')))
  ∧ load b FileNotFound = Returns b ()
  ∧ load b FileCorrupt = Raises b UnpicklingError.
Proof.
  split; [|done].
  intros Hnd. eexists. split; [apply load_data_spec|]. simpl.
  assert (∀ k, k ∈ dict_keys (dict_update (data b) d) →
               k < match py_max_list (dict_keys (dict_update (data b) d)) with
                   | Some m => m + 1
                   | None => next_id b
                   end) as Hbelow.
  { intros k Hk.
    destruct (py_max_list (dict_keys (dict_update (data b) d))) as [m|] eqn:E.
    - apply py_max_list_spec in E as [_ Hmax]. specialize (Hmax k Hk). lia.
    - apply py_max_list_None in E. rewrite E in Hk. by apply not_elem_of_nil in Hk. }
  split; [intros k; by apply dict_update_get|].
  split; [intros k; apply dict_update_keys|].
  split; [done|].
  intros He r. rewrite add_record_fresh by done. simpl. f_equal.
  apply advance_next_id_stays. split; simpl.
  - intros Hin. specialize (Hbelow _ Hin). lia.
  - rewrite He. apply not_elem_of_empty.
Qed.

Lemma load_merges_file_witness :
  ∃ b', load Ex.book3 Ex.file35 = Returns b' ()
        ∧ dict_get (data b') 3 = Some (set_id Ex.R4 3)
        ∧ dict_get (data b') 1 = dict_get (data Ex.book3) 1
        ∧ id (add_record b' Ex.R1).2 = Some (next_id b').
Proof.
  destruct (load_merges_file Ex.book3 [(3, set_id Ex.R4 3); (5, set_id Ex.R5 5)])
    as (Hload & _ & _).
  destruct Hload as (b' & Hl & Hget & _ & _ & Hadd); [by_evaluation|].
  exists b'. split; [exact Hl|]. split; [apply (Hget 3)|].
  split; [apply (Hget 1)|]. apply Hadd. vm_compute. reflexivity.
Defined.



(** X11.  [load_notes] of a file with distinct titles merges it into the
    notebook: a title of the file reads as in the file, any other title
    reads as before; a missing file leaves the notebook untouched. *)
Theorem load_notes_merges_file (nb : Notebook.t) (d : list (string * note_body)) :
  (NoDup (dict_keys d) →
   ∃ nb', Notebook.load_notes nb (Notebook.NotesData d) = Returns nb' ()
          ∧ (∀ title, dict_get (Notebook.data nb') title
                      = match dict_get d title with
                        | Some c => Some c
                        | None => dict_get (Notebook.data nb) title
                        end)
          ∧ (∀ title, title ∈ dict_keys (Notebook.data nb') ↔
                      title ∈ dict_keys (Notebook.data nb) ∨ title ∈ dict_keys d))
  ∧ Notebook.load_notes nb Notebook.NotesNotFound = Returns nb ().
Proof.
  split; [|done].
  intros Hnd. eexists. split; [reflexivity|]. simpl.
  split; [intros title; by apply dict_update_get|].
  intros title. apply dict_update_keys.
Qed.

Lemma load_notes_merges_file_witness :
  ∃ nb', Notebook.load_notes Ex.notes_todo Ex.notes_on_disk = Returns nb' ()
         ∧ dict_get (Notebook.data nb') "todo" = Some (BStr "buy bread")
         ∧ dict_get (Notebook.data nb') "diary" = Some (BStr "rain").
Proof.
  destruct (load_notes_merges_file Ex.notes_todo
              [("todo", BStr "buy bread"); ("diary", BStr "rain")])
    as (Hload & _).
  destruct Hload as (nb' & Hl & Hget & _); [by_evaluation|].
  exists nb'. split; [exact Hl|]. split; [apply (Hget "todo")|apply (Hget "diary")].
Defined.

(** ** Record: editing a phone number or an email address *)

(** X12.  [edit_phone_number(old, new)] removes the first element that is
    the object [old] and appends [new] at the end of the list, so the number
    of phone numbers stays the same; when [old] is not an element it raises
    [ValueError], [new] is not added and the record is as before.
    [edit_email_address] does the same on the email addresses. *)
Theorem edit_field_effect r old new :
  (∀ l1 x l2,
     phone_numbers r = l1 ++ x :: l2 → oid x = oid old →
     (∀ y, y ∈ l1 → oid y ≠ oid old) →
     edit_phone_number r old new
     = Returns (set_phone_numbers r (l1 ++ l2 ++ [new])) ())
  ∧ ((∀ y, y ∈ phone_numbers r → oid y ≠ oid old) →
     edit_phone_number r old new = Raises r ValueError)
  ∧ (∀ l1 x l2,
       email_addresses r = l1 ++ x :: l2 → oid x = oid old →
       (∀ y, y ∈ l1 → oid y ≠ oid old) →
       edit_email_address r old new
       = Returns (set_email_addresses r (l1 ++ l2 ++ [new])) ())
  ∧ ((∀ y, y ∈ email_addresses r → oid y ≠ oid old) →
     edit_email_address r old new = Raises r ValueError).
Proof.
  unfold edit_phone_number, edit_email_address,
    remove_phone_number, remove_email_address.
  split; [|split; [|split]].
  - intros l1 x l2 -> Hx Hl1. rewrite list_remove_first by done.
    unfold add_phone_number, set_phone_numbers. simpl. by rewrite <- app_assoc.
  - intros Hnone. by rewrite list_remove_absent.
  - intros l1 x l2 -> Hx Hl1. rewrite list_remove_first by done.
    unfold add_email_address, set_email_addresses. simpl. by rewrite <- app_assoc.
  - intros Hnone. by rewrite list_remove_absent.
Qed.

Lemma edit_field_effect_witness :
  edit_phone_number Ex.jan3 Ex.phone_a Ex.phone_b
    = Returns (set_phone_numbers Ex.jan3 [Ex.phone_c; Ex.phone_b; Ex.phone_b]) ()
  ∧ edit_phone_number Ex.jan Ex.phone_b Ex.phone_c = Raises Ex.jan ValueError
  ∧ edit_email_address Ex.jan_mail Ex.mail_a Ex.mail_b
    = Returns (set_email_addresses Ex.jan_mail [Ex.mail_b]) ()
  ∧ edit_email_address Ex.jan_mail Ex.mail_b Ex.mail_a = Raises Ex.jan_mail ValueError.
Proof.
  split; [|split; [|split]].
  - apply (proj1 (edit_field_effect Ex.jan3 Ex.phone_a Ex.phone_b)
             [] Ex.phone_a [Ex.phone_c; Ex.phone_b]).
    + reflexivity.
    + reflexivity.
    + apply Forall_forall. by_evaluation.
  - apply (proj1 (proj2 (edit_field_effect Ex.jan Ex.phone_b Ex.phone_c))).
    apply Forall_forall. by_evaluation.
  - apply (proj1 (proj2 (proj2 (edit_field_effect Ex.jan_mail Ex.mail_a Ex.mail_b)))
             [] Ex.mail_a []).
    + reflexivity.
    + reflexivity.
    + apply Forall_forall. by_evaluation.
  - apply (proj2 (proj2 (proj2 (edit_field_effect Ex.jan_mail Ex.mail_b Ex.mail_a)))).
    apply Forall_forall. by_evaluation.
Defined.

(** ** Notebook: storing, replacing and deleting notes *)

(** X13.  [add_note] stores the content under the title: the title then
    reads as the new content and every other title reads as before; a title
    that was present keeps its place among the titles, a new title goes
    last.  On a title that is present, [modify_note_content] does the same
    and reports the update. *)
Theorem add_note_then_lookup (nb : Notebook.t) (t : string) (c : note_body) :
  dict_get (Notebook.data (Notebook.add_note nb t c)) t = Some c
  ∧ (∀ t', t' ≠ t →
       dict_get (Notebook.data (Notebook.add_note nb t c)) t'
       = dict_get (Notebook.data nb) t')
  ∧ (t ∈ dict_keys (Notebook.data nb) →
     dict_keys (Notebook.data (Notebook.add_note nb t c))
     = dict_keys (Notebook.data nb)
     ∧ Notebook.modify_note_content nb t c = (Notebook.add_note nb t c, NoteUpdated))
  ∧ (t ∉ dict_keys (Notebook.data nb) →
     Notebook.data (Notebook.add_note nb t c) = Notebook.data nb ++ [(t, c)]).
Proof.
  unfold Notebook.add_note, Notebook.modify_note_content. simpl.
  split; [apply dict_get_set_eq|].
  split; [intros t' Hne; by apply dict_get_set_ne|].
  split.
  - intros Hin. split; [by apply dict_keys_set_present|].
    by rewrite (proj2 (dict_contains_true _ _) Hin).
  - apply dict_set_fresh.
Qed.

Lemma add_note_then_lookup_witness :
  dict_keys (Notebook.data (Notebook.add_note Ex.notes_todo "todo" (BStr "buy tea")))
  = dict_keys (Notebook.data Ex.notes_todo)
  ∧ Notebook.data (Notebook.add_note Ex.notes_todo "diary" (BStr "rain"))
    = Notebook.data Ex.notes_todo ++ [("diary", BStr "rain")].
Proof.
  split.
  - apply (add_note_then_lookup Ex.notes_todo "todo" (BStr "buy tea")).
    by_evaluation.
  - apply (add_note_then_lookup Ex.notes_todo "diary" (BStr "rain")).
    by_evaluation.
Defined.

Lemma note_step_NoDup nb o :
  NoDup (dict_keys (Notebook.data nb)) →
  NoDup (dict_keys (Notebook.data (note_step nb o))).
Proof.
  intros Hnd. destruct o as [t c|t c|t|t g]; simpl.
  - by apply dict_set_NoDup.
  - unfold Notebook.modify_note_content.
    destruct (dict_contains (Notebook.data nb) t); simpl; [|done].
    by apply dict_set_NoDup.
  - unfold Notebook.delete_note.
    destruct (dict_contains (Notebook.data nb) t); simpl; [|done].
    by apply dict_del_NoDup.
  - unfold Tag.tag_note.
    destruct (dict_get (Notebook.data nb) t) as [body|]; simpl; [|done].
    destruct (Tag.tag_body body g); simpl; [done|].
    by apply dict_set_NoDup.
Qed.

Lemma note_run_NoDup ops : ∀ nb,
  NoDup (dict_keys (Notebook.data nb)) →
  NoDup (dict_keys (Notebook.data (note_run nb ops))).
Proof.
  unfold note_run. induction ops as [|o ops IH]; intros nb Hnd; simpl; [done|].
  apply IH. by apply note_step_NoDup.
Qed.

(** X14.  In a notebook built from an empty one by adding, modifying,
    deleting and tagging notes, the titles are pairwise distinct, and
    deleting a title that is present reports the deletion, removes that
    title and leaves every other note as it was. *)
Theorem delete_note_removes_title ops t :
  let nb := note_run Notebook.init ops in
  NoDup (dict_keys (Notebook.data nb))
  ∧ (t ∈ dict_keys (Notebook.data nb) →
     (Notebook.delete_note nb t).2 = NoteDeleted
     ∧ (t ∉ dict_keys (Notebook.data (Notebook.delete_note nb t).1))
     ∧ (∀ t', t' ≠ t →
          dict_get (Notebook.data (Notebook.delete_note nb t).1) t'
          = dict_get (Notebook.data nb) t')).
Proof.
  intros nb.
  assert (NoDup (dict_keys (Notebook.data nb))) as Hnd
    by (apply note_run_NoDup, NoDup_nil_2).
  split; [done|]. intros Hin. unfold Notebook.delete_note.
  rewrite (proj2 (dict_contains_true _ _) Hin). simpl.
  split; [done|]. split.
  - rewrite dict_keys_del_NoDup by done. naive_solver.
  - intros t' Hne. by apply dict_get_del_ne.
Qed.

Lemma delete_note_removes_title_witness :
  (Notebook.delete_note Ex.notes_three "b").2 = NoteDeleted
  ∧ ("b" ∉ dict_keys (Notebook.data (Notebook.delete_note Ex.notes_three "b").1)).
Proof.
  destruct (delete_note_removes_title
              [AddNote "a" (BDict [("tags", VList ["work"])]);
               AddNote "b" (BDict [("text", VStr "plain")]);
               AddNote "c" (BDict [("tags", VList ["home"])])] "b")
    as (_ & Hdel).
  destruct Hdel as (Hmsg & Hgone & _); [by_evaluation|].
  split; [exact Hmsg|exact Hgone].
Defined.

(** ** Tag: attaching and finding tags *)

(** X15.  Tagging a note whose body is a plain string always raises
    [TypeError] and leaves the notebook as it was, whatever the text and
    the tag. *)
Theorem tag_note_string_body_raises (nb : Notebook.t) (title s tag : string) :
  dict_get (Notebook.data nb) title = Some (BStr s) →
  Tag.tag_note nb title tag = Raises nb TypeError.
Proof. apply tag_note_str_body. Qed.

Lemma tag_note_string_body_raises_witness :
  Tag.tag_note Ex.notes_on_disk_book "diary" "home"
  = Raises Ex.notes_on_disk_book TypeError.
Proof.
  apply (tag_note_string_body_raises Ex.notes_on_disk_book "diary" "rain" "home").
  reflexivity.
Defined.



Section dict_elem_facts.
Context {K V : Type} `{EqDecision K}.
Implicit Types (d : list (K * V)) (k : K) (v : V).

Lemma dict_get_Some_elem d k v : dict_get d k = Some v → (k, v) ∈ d.
Proof.
  induction d as [|[k' v'] d IH]; simpl; [done|].
  destruct (decide (k = k')) as [->|Hne].
  - intros [= ->]. left.
  - intros Hget. right. by apply IH.
Qed.

Lemma dict_set_elem_new d k v : (k, v) ∈ dict_set d k v.
Proof.
  induction d as [|[k' v'] d IH]; simpl; [left|].
  destruct (decide (k = k')); [left|by right].
Qed.

Lemma dict_set_elem d k v k' v' :
  (k', v') ∈ dict_set d k v → (k', v') = (k, v) ∨ (k', v') ∈ d.
Proof.
  induction d as [|[k0 v0] d IH]; simpl.
  - rewrite list_elem_of_singleton. by left.
  - destruct (decide (k = k0)) as [->|Hne]; rewrite !elem_of_cons; naive_solver.
Qed.

End dict_elem_facts.

Lemma has_tag_raises_TypeError content tag e :
  Tag.has_tag content tag = inl e → e = TypeError.
Proof.
  destruct content as [s|d]; simpl.
  - destruct (Str.contains "tags" s); congruence.
  - destruct (dict_get d "tags") as [[?|?]|]; congruence.
Qed.

Lemma find_notes_loop_returns items tag : ∀ found,
  (∀ t c, (t, c) ∈ items → ∃ b, Tag.has_tag c tag = inr b) →
  Tag.find_notes_loop items tag found = inr (found ++ filter (λ it, tagged tag it = true) items).
Proof.
  induction items as [|[t c] items IH]; intros found Hok; simpl.
  - by rewrite app_nil_r.
  - destruct (Hok t c (list_elem_of_here _ _)) as [b Hb].
    assert (tagged tag (t, c) = b) as Htagged
      by (unfold tagged; simpl; rewrite Hb; by destruct b).
    assert (∀ t' c', (t', c') ∈ items → ∃ b', Tag.has_tag c' tag = inr b') as Hok'
      by (intros t' c' Hin; apply (Hok t' c'); by right).
    rewrite Hb. destruct b; rewrite (IH _ Hok').
    + rewrite filter_cons_True by done. by rewrite <- app_assoc.
    + rewrite filter_cons_False by congruence. done.
Qed.

Lemma find_notes_loop_raises items tag : ∀ found,
  (∃ t c e, (t, c) ∈ items ∧ Tag.has_tag c tag = inl e) →
  Tag.find_notes_loop items tag found = inl TypeError.
Proof.
  induction items as [|[t c] items IH]; intros found (t0 & c0 & e & Hin & He).
  - by apply not_elem_of_nil in Hin.
  - simpl. destruct (Tag.has_tag c tag) as [e'|b] eqn:Hc.
    + by rewrite (has_tag_raises_TypeError _ _ _ Hc).
    + apply elem_of_cons in Hin as [[= -> ->]|Hin]; [congruence|].
      destruct b; apply IH; eauto.
Qed.

(** X17.  [find_notes_by_tag] raises [TypeError] as soon as some note has a
    plain string body that contains the text "tags".  Otherwise it returns,
    in the order of insertion, the notes with a [dict] body whose ["tags"]
    list contains the tag (or whose ["tags"] string contains it as a
    substring); a plain string body is never returned. *)
Theorem find_notes_by_tag_result (nb : Notebook.t) (tag : string) :
  ((∃ t s, (t, BStr s) ∈ Notebook.data nb ∧ is_substring "tags" s) →
   Tag.find_notes_by_tag nb tag = inl TypeError)
  ∧ ((∀ t s, (t, BStr s) ∈ Notebook.data nb → ¬ is_substring "tags" s) →
     Tag.find_notes_by_tag nb tag
     = inr (filter (λ it, tagged tag it = true) (Notebook.data nb)))
  ∧ (∀ t s, tagged tag (t, BStr s) = false)
  ∧ (∀ t d, tagged tag (t, BDict d) = true ↔
            (∃ l, dict_get d "tags" = Some (VList l) ∧ tag ∈ l)
            ∨ (∃ s, dict_get d "tags" = Some (VStr s) ∧ is_substring tag s)).
Proof.
  unfold Tag.find_notes_by_tag. split; [|split; [|split]].
  - intros (t & s & Hin & Hsub). apply find_notes_loop_raises.
    exists t, (BStr s), TypeError. split; [done|]. simpl.
    by rewrite (proj2 (contains_spec _ _) Hsub).
  - intros Hok. rewrite find_notes_loop_returns; [done|].
    intros t [s|d] Hin; simpl.
    + destruct (Str.contains "tags" s) eqn:E; [|by eexists].
      apply contains_spec in E. by destruct (Hok t s Hin).
    + destruct (dict_get d "tags") as [[?|?]|]; by eexists.
  - intros t s. unfold tagged. simpl. by destruct (Str.contains "tags" s).
  - intros t d. unfold tagged. simpl.
    destruct (dict_get d "tags") as [[s|l]|] eqn:E.
    + destruct (Str.contains tag s) eqn:Hc.
      * split; [|done]. intros _. right. exists s. split; [done|].
        by apply contains_spec.
      * split; [done|]. intros [(l & [=] & _)|(s' & [= <-] & Hsub)].
        apply contains_spec in Hsub. congruence.
    + case_bool_decide as Hl.
      * split; [|done]. intros _. left. by exists l.
      * split; [done|]. intros [(l' & [= <-] & Hin)|(s' & [=] & _)]. done.
    + split; [done|]. intros [(l' & [=] & _)|(s' & [=] & _)].
Qed.

Lemma find_notes_by_tag_result_witness :
  Tag.find_notes_by_tag Ex.notes_three "work"
  = inr (filter (λ it, tagged "work" it = true) (Notebook.data Ex.notes_three)).
Proof.
  apply (find_notes_by_tag_result Ex.notes_three "work").
  intros t s Hin. exfalso. vm_compute in Hin.
  repeat (apply elem_of_cons in Hin as [Hin|Hin]; [discriminate|]).
  by apply not_elem_of_nil in Hin.
Defined.

(** X18.  In a notebook whose bodies are all plain strings, as the driver
    stores them, [find_notes_by_tag] never returns a note: it returns the
    empty list, or raises [TypeError] when some text contains "tags". *)
Theorem find_notes_by_tag_string_bodies (nb : Notebook.t) (tag : string) :
  (∀ t c, (t, c) ∈ Notebook.data nb → ∃ s, c = BStr s) →
  Tag.find_notes_by_tag nb tag = inr []
  ∨ Tag.find_notes_by_tag nb tag = inl TypeError.
Proof.
  intros Hstr. unfold Tag.find_notes_by_tag.
  induction (Notebook.data nb) as [|[t c] items IH]; [by left|].
  destruct (Hstr t c (list_elem_of_here _ _)) as [s ->]. simpl.
  destruct (Str.contains "tags" s); [by right|].
  apply IH. intros t' c' Hin. apply (Hstr t' c'). by right.
Qed.

Lemma find_notes_by_tag_string_bodies_witness :
  Tag.find_notes_by_tag Ex.notes_on_disk_book "home" = inr []
  ∨ Tag.find_notes_by_tag Ex.notes_on_disk_book "home" = inl TypeError.
Proof.
  apply (find_notes_by_tag_string_bodies Ex.notes_on_disk_book "home").
  intros t c Hin. vm_compute in Hin.
  repeat (apply elem_of_cons in Hin as [Hin|Hin]; [simplify_eq; by eexists|]).
  by apply not_elem_of_nil in Hin.
Defined.

(** X19.  In a notebook whose bodies are all [dict]s, a note that was just
    tagged with success is among the notes [find_notes_by_tag] returns for
    that tag. *)
Theorem tag_then_find (nb nb' : Notebook.t) (title tag : string) :
  (∀ t c, (t, c) ∈ Notebook.data nb → ∃ d, c = BDict d) →
  Tag.tag_note nb title tag = Returns nb' TagAdded →
  ∃ l body, Tag.find_notes_by_tag nb' tag = inr l ∧ (title, body) ∈ l.
Proof.
  intros Hdict. unfold Tag.tag_note.
  destruct (dict_get (Notebook.data nb) title) as [body0|] eqn:Hget; [|done].
  destruct (Hdict _ _ (dict_get_Some_elem _ _ _ Hget)) as [d ->].
  destruct (Tag.tag_body (BDict d) tag) as [e|body'] eqn:Hbody; [done|].
  intros [= <-].
  assert (tagged tag (title, body') = true) as Htagged.
  { unfold tagged. simpl in *.
    destruct (dict_get d "tags") as [[s|l]|]; simplify_eq; simpl;
      rewrite dict_get_set_eq, bool_decide_eq_true_2; [done| |done|];
      set_solver. }
  assert (∃ d', body' = BDict d') as [d' ->].
  { simpl in Hbody. destruct (dict_get d "tags") as [[s|l]|]; simplify_eq; eauto. }
  do 2 eexists. split.
  - unfold Tag.find_notes_by_tag. apply find_notes_loop_returns. simpl.
    intros t c [[= -> ->]|Hin]%dict_set_elem.
    + simpl. destruct (dict_get d' "tags") as [[?|?]|]; by eexists.
    + destruct (Hdict t c Hin) as [d0 ->]. simpl.
      destruct (dict_get d0 "tags") as [[?|?]|]; by eexists.
  - simpl. apply list_elem_of_filter. split; [exact Htagged|].
    apply dict_set_elem_new.
Qed.

Lemma tag_then_find_witness :
  ∃ l body,
    Tag.find_notes_by_tag (state_of (Tag.tag_note Ex.notes_three "b" "home")) "home"
    = inr l
    ∧ ("b", body) ∈ l.
Proof.
  apply (tag_then_find Ex.notes_three _ "b" "home").
  - intros t c Hin. vm_compute in Hin.
    repeat (apply elem_of_cons in Hin as [Hin|Hin]; [simplify_eq; by eexists|]).
    by apply not_elem_of_nil in Hin.
  - reflexivity.
Defined.

(** ** Tag: sorting the notes by their tags *)

Lemma sort_key_raises_AttributeError content e :
  Tag.sort_key content = inl e → e = AttributeError.
Proof. destruct content; simpl; congruence. Qed.

Lemma sort_keys_raises items :
  (∃ t s, (t, BStr s) ∈ items) → Tag.sort_keys items = inl AttributeError.
Proof.
  induction items as [|[t c] items IH]; intros (t0 & s & Hin).
  - by apply not_elem_of_nil in Hin.
  - simpl. destruct (Tag.sort_key c) as [e|k] eqn:Hk.
    + by rewrite (sort_key_raises_AttributeError _ _ Hk).
    + apply elem_of_cons in Hin as [[= <- <-]|Hin]; [simpl in Hk; discriminate|].
      rewrite IH; [done|eauto].
Qed.

(** X20.  [sort_notes_by_tags] raises [AttributeError] as soon as some note
    has a plain string body, which is how the driver stores every note; on
    an empty notebook it returns the empty list. *)
Theorem sort_notes_by_tags_string_body_raises (nb : Notebook.t) :
  ((∃ t s, (t, BStr s) ∈ Notebook.data nb) →
   Tag.sort_notes_by_tags nb = inl AttributeError)
  ∧ (Notebook.data nb = [] → Tag.sort_notes_by_tags nb = inr []).
Proof.
  unfold Tag.sort_notes_by_tags. split.
  - intros Hstr. by rewrite sort_keys_raises.
  - intros ->. done.
Qed.

Lemma sort_notes_by_tags_string_body_raises_witness :
  Tag.sort_notes_by_tags Ex.notes_todo = inl AttributeError
  ∧ Tag.sort_notes_by_tags Notebook.init = inr [].
Proof.
  split.
  - apply (sort_notes_by_tags_string_body_raises Ex.notes_todo).
    exists "todo", "buy milk". left.
  - apply (sort_notes_by_tags_string_body_raises Notebook.init). reflexivity.
Defined.

Lemma ltb_asym (x y : string) : String.ltb x y = true → String.ltb y x = false.
Proof.
  unfold String.ltb. rewrite (String.compare_antisym x y).
  by destruct (String.compare y x).
Qed.

Lemma list_lt_asym l1 : ∀ l2,
  Tag.list_lt l1 l2 = true → Tag.list_lt l2 l1 = false.
Proof.
  induction l1 as [|x l1 IH]; intros [|y l2]; simpl; try done.
  rewrite (String.eqb_sym y x).
  destruct (String.eqb x y); [apply IH|apply ltb_asym].
Qed.

Lemma list_lt_nil_r l : Tag.list_lt l [] = false.
Proof. by destruct l. Qed.

Lemma sort_insert_list_keys (x : (note_value * (string * note_body))) (placed : list (note_value * (string * note_body))) :
  (∃ l, x.1 = VList l) →
  Forall (λ y : (note_value * (string * note_body)), ∃ l, y.1 = VList l) placed →
  Sorted (λ a b : (note_value * (string * note_body)), Tag.key_lt b.1 a.1 = inr false) placed →
  ∃ placed',
    Tag.sort_insert x placed = inr placed'
    ∧ placed' ≡ₚ x :: placed
    ∧ Sorted (λ a b : (note_value * (string * note_body)), Tag.key_lt b.1 a.1 = inr false) placed'
    ∧ (∀ a, HdRel (λ a b : (note_value * (string * note_body)), Tag.key_lt b.1 a.1 = inr false) a placed →
            Tag.key_lt x.1 a.1 = inr false →
            HdRel (λ a b : (note_value * (string * note_body)), Tag.key_lt b.1 a.1 = inr false) a placed').
Proof.
  destruct x as [kx itx]. simpl. intros [lx ->].
  induction placed as [|[ky ity] placed IH]; intros Hkeys Hsorted.
  - eexists. simpl. split; [done|]. split; [done|].
    split; [by repeat constructor|]. intros a _ Ha. by constructor.
  - apply Forall_cons in Hkeys as [[ly Hy] Hkeys]. simpl in Hy. subst ky.
    apply Sorted_inv in Hsorted as [Hsorted Hhd].
    simpl. destruct (Tag.list_lt lx ly) eqn:Hlt.
    + eexists. split; [done|]. split; [done|]. split.
      * constructor; [by constructor|]. constructor.
        simpl. by rewrite (list_lt_asym _ _ Hlt).
      * intros a _ Ha. by constructor.
    + destruct (IH Hkeys Hsorted) as (placed' & Hins & Hperm & Hs & Hrel).
      rewrite Hins. eexists. split; [done|].
      split; [rewrite Hperm; apply Permutation_swap|]. split.
      * constructor; [done|]. apply Hrel; [done|].
        simpl. by rewrite Hlt.
      * intros a Ha _. apply HdRel_inv in Ha. by constructor.
Qed.

Lemma sort_loop_list_keys (todo : list (note_value * (string * note_body))) : ∀ placed : list (note_value * (string * note_body)),
  Forall (λ y : (note_value * (string * note_body)), ∃ l, y.1 = VList l) todo →
  Forall (λ y : (note_value * (string * note_body)), ∃ l, y.1 = VList l) placed →
  Sorted (λ a b : (note_value * (string * note_body)), Tag.key_lt b.1 a.1 = inr false) placed →
  ∃ sorted,
    Tag.sort_loop todo placed = inr sorted
    ∧ sorted ≡ₚ placed ++ todo
    ∧ Sorted (λ a b : (note_value * (string * note_body)), Tag.key_lt b.1 a.1 = inr false) sorted.
Proof.
  induction todo as [|x todo IH]; intros placed Htodo Hplaced Hsorted.
  - exists placed. simpl. by rewrite app_nil_r.
  - apply Forall_cons in Htodo as [Hx Htodo].
    destruct (sort_insert_list_keys x placed Hx Hplaced Hsorted)
      as (placed' & Hins & Hperm & Hs & _).
    simpl. rewrite Hins.
    destruct (IH placed' Htodo) as (sorted & Hloop & Hperm' & Hs'); [|done|].
    { rewrite Hperm. by constructor. }
    exists sorted. split; [done|]. split; [|done].
    rewrite Hperm', Hperm. simpl. apply Permutation_middle.
Qed.

Lemma sort_keys_list_keys items :
  Forall (λ it : string * note_body, dict_with_list_tags it.2) items →
  Tag.sort_keys items = inr ((λ it, (VList (tags_key it.2), it)) <$> items).
Proof.
  induction items as [|[t c] items IH]; intros Hall; [done|].
  apply Forall_cons in Hall as [Hc Hall]. simpl. rewrite (IH Hall).
  destruct c as [s|d]; [done|]. simpl in *.
  unfold tags_key, Tag.tags_of.
  by destruct (dict_get d "tags") as [[?|?]|].
Qed.

Lemma Sorted_fmap {A B} (R : A → A → Prop) (R' : B → B → Prop) (f : A → B) l :
  (∀ a b, a ∈ l → b ∈ l → R a b → R' (f a) (f b)) →
  Sorted R l → Sorted R' (f <$> l).
Proof.
  induction l as [|a l IH]; intros HR Hs; [constructor|].
  apply Sorted_inv in Hs as [Hs Hhd]. simpl. constructor.
  - apply IH; [|done]. intros x y Hx Hy. apply HR; by right.
  - destruct l as [|b l]; [constructor|]. apply HdRel_inv in Hhd.
    constructor. apply HR; [left|right; left|done].
Qed.

(** X21.  On a notebook whose bodies are all [dict]s with a list of tags or
    none, [sort_notes_by_tags] returns the notes rearranged so that no note
    is followed directly by a note with a smaller list of tags; in
    particular a note without tags never comes directly after a note with
    tags. *)
Theorem sort_notes_by_tags_sorts (nb : Notebook.t) :
  Forall (λ it : string * note_body, dict_with_list_tags it.2) (Notebook.data nb) →
  ∃ sorted,
    Tag.sort_notes_by_tags nb = inr sorted
    ∧ sorted ≡ₚ Notebook.data nb
    ∧ Sorted (λ a b : string * note_body,
                Tag.list_lt (tags_key b.2) (tags_key a.2) = false) sorted
    ∧ (∀ l1 a b l2, sorted = l1 ++ a :: b :: l2 →
                    tags_key b.2 = [] → tags_key a.2 = []).
Proof.
  intros Hall. unfold Tag.sort_notes_by_tags.
  rewrite (sort_keys_list_keys _ Hall).
  set (ks := (λ it : string * note_body, (VList (tags_key it.2), it))
               <$> Notebook.data nb).
  assert (Forall (λ y : (note_value * (string * note_body)), y.1 = VList (tags_key y.2.2)) ks) as Hks.
  { apply Forall_fmap, Forall_forall. by intros it _. }
  destruct (sort_loop_list_keys ks []) as (sorted & Hloop & Hperm & Hs).
  { eapply Forall_impl; [exact Hks|]. intros y Hy. simpl in *. eauto. }
  { constructor. }
  { constructor. }
  rewrite Hloop. simpl in Hperm.
  assert (Forall (λ y : (note_value * (string * note_body)), y.1 = VList (tags_key y.2.2)) sorted) as Hsk
    by (by rewrite Hperm).
  assert (Sorted (λ a b : string * note_body,
                    Tag.list_lt (tags_key b.2) (tags_key a.2) = false) (sorted.*2))
    as Hsorted.
  { eapply Sorted_fmap; [|exact Hs]. intros a b Ha Hb. simpl.
    rewrite Forall_forall in Hsk.
    rewrite (Hsk a Ha), (Hsk b Hb). simpl. congruence. }
  exists (sorted.*2). split; [done|]. split; [|split; [done|]].
  - rewrite Hperm. unfold ks. rewrite <- list_fmap_compose.
    by rewrite list_fmap_id.
  - intros l1 a b l2 Heq Hb. rewrite Heq in Hsorted.
    clear -Hsorted Hb. induction l1 as [|c l1 IH]; simpl in *.
    + apply Sorted_inv in Hsorted as [_ Hhd]. apply HdRel_inv in Hhd.
      rewrite Hb in Hhd. by destruct (tags_key a.2).
    + apply Sorted_inv in Hsorted as [Hsorted _]. by apply IH.
Qed.

Lemma sort_notes_by_tags_sorts_witness :
  ∃ sorted,
    Tag.sort_notes_by_tags Ex.notes_three = inr sorted
    ∧ sorted ≡ₚ Notebook.data Ex.notes_three
    ∧ sorted.*1 = ["b"; "c"; "a"].
Proof.
  destruct (sort_notes_by_tags_sorts Ex.notes_three) as (sorted & Hsort & Hperm & _).
  - vm_compute. repeat constructor.
  - exists sorted. split; [exact Hsort|]. split; [exact Hperm|].
    vm_compute in Hsort. injection Hsort as <-. reflexivity.
Defined.

(** ** The driver: contacts with a birthday in the next days *)

Lemma contacts_with_birthdays_of_returns today rs l :
  contacts_with_birthdays_of today rs = inr l →
  l = filter (λ r, due today r = true) rs
  ∧ ∀ r, r ∈ rs → ∃ keep, birthday_soon today r = inr keep.
Proof.
  revert l. induction rs as [|r rs IH]; intros l; simpl.
  - intros [= <-]. split; [done|]. intros r Hr. by apply not_elem_of_nil in Hr.
  - destruct (birthday_soon today r) as [e|keep] eqn:Hr; [done|].
    destruct (contacts_with_birthdays_of today rs) as [e|l'] eqn:Hrs; [done|].
    destruct (IH l' eq_refl) as [-> Hall]. intros [= <-].
    assert (due today r = keep) as Hdue
      by (unfold due; rewrite Hr; by destruct keep).
    split.
    + destruct keep; [by rewrite filter_cons_True|].
      by rewrite filter_cons_False by congruence.
    + intros r' [->|Hin]%elem_of_cons; [eauto|by apply Hall].
Qed.

Lemma contacts_with_birthdays_of_raises today rs :
  (∃ r e, r ∈ rs ∧ birthday_soon today r = inl e) →
  ∃ e, contacts_with_birthdays_of today rs = inl e.
Proof.
  induction rs as [|r rs IH]; intros (r0 & e & Hin & He).
  - by apply not_elem_of_nil in Hin.
  - simpl. destruct (birthday_soon today r) as [e'|keep] eqn:Hr; [eauto|].
    apply elem_of_cons in Hin as [->|Hin]; [congruence|].
    destruct (IH (ex_intro _ r0 (ex_intro _ e (conj Hin He)))) as [e' ->]. eauto.
Qed.

Lemma due_spec today r :
  due today r = true ↔
  birthdate r ≠ None ∧ ∃ n, days_to_birthdate today r = inr (PyInt n) ∧ n < 7.
Proof.
  unfold due, birthday_soon.
  destruct (birthdate r) as [b|] eqn:Hb; [|naive_solver].
  destruct (days_to_birthdate today r) as [e|[|s|n]]; try naive_solver.
  destruct (Z.ltb_spec n 7); split; try done.
  - intros _. split; [done|]. exists n. split; [done|lia].
  - intros [_ (n' & [= <-] & Hn)]. lia.
Qed.

(** X22.  When the birthday listing of the driver returns, it lists, in the
    order of insertion, exactly the contacts that have a birthdate and
    fewer than 7 days to go; a contact without birthdate is never listed.
    When [days_to_birthdate] raises for one contact with a birthdate, the
    whole listing raises and no contact is shown. *)
Theorem contacts_with_birthdays_result today b :
  (∀ l, contacts_with_birthdays today b = inr l →
        l = filter (λ r, due today r = true) (dict_values (data b))
        ∧ ∀ r, r ∈ l ↔
               r ∈ dict_values (data b)
               ∧ birthdate r ≠ None
               ∧ ∃ n, days_to_birthdate today r = inr (PyInt n) ∧ n < 7)
  ∧ ((∃ r e, r ∈ dict_values (data b) ∧ birthdate r ≠ None
             ∧ days_to_birthdate today r = inl e) →
     ∃ e, contacts_with_birthdays today b = inl e).
Proof.
  unfold contacts_with_birthdays. split.
  - intros l [-> _]%contacts_with_birthdays_of_returns. split; [done|].
    intros r. rewrite list_elem_of_filter, due_spec. naive_solver.
  - intros (r & e & Hin & Hb & He). apply contacts_with_birthdays_of_raises.
    exists r, e. split; [done|]. unfold birthday_soon.
    destruct (birthdate r); [|done]. by rewrite He.
Qed.

Lemma contacts_with_birthdays_result_witness :
  [set_id (Ex.born "2000-03-07") 1]
  = filter (λ r, due (Ex.clock 2024 3 1 0) r = true)
           (dict_values (data Ex.book_birthdays))
  ∧ ∃ e, contacts_with_birthdays (Ex.clock 2023 3 1 0) Ex.book_leap_day = inl e.
Proof.
  split.
  - apply (proj1 (contacts_with_birthdays_result (Ex.clock 2024 3 1 0)
                    Ex.book_birthdays)
             [set_id (Ex.born "2000-03-07") 1]).
    reflexivity.
  - apply (proj2 (contacts_with_birthdays_result (Ex.clock 2023 3 1 0)
                    Ex.book_leap_day)).
    exists (set_id (Ex.born "2000-02-29") 3), ValueError.
    split; [apply list_elem_of_lookup; by exists 2%nat|].
    split; [discriminate|reflexivity].
Defined.

(** X23.  For a contact born on 29 February, [days_to_birthdate] raises
    [ValueError] whenever the year of the clock is not a leap year. *)
Theorem days_to_birthdate_leap_day_raises today r b y :
  birthdate r = Some b →
  datetime.strptime (value b) = inr (datetime.mk y 2 29 0 0 0 0) →
  datetime.is_leap (datetime.year today) = false →
  days_to_birthdate today r = inl ValueError.
Proof.
  intros Hb Hs Hleap.
  destruct (strptime_midnight _ _ Hs) as (Htruthy & _ & _).
  unfold days_to_birthdate. rewrite Hb, Htruthy, Hs. simpl.
  unfold datetime.replace_year, datetime.check_date_fields, datetime.days_in_month.
  simpl. rewrite Hleap. simpl. by rewrite !andb_false_r.
Qed.

Lemma days_to_birthdate_leap_day_raises_witness :
  days_to_birthdate (Ex.clock 2023 6 1 12) (Ex.born "2000-02-29") = inl ValueError.
Proof.
  apply (days_to_birthdate_leap_day_raises (Ex.clock 2023 6 1 12)
           (Ex.born "2000-02-29") {| oid := 31; value := "2000-02-29" |} 2000);
    reflexivity.
Defined.

(** X24.  With the clock at midnight and a birthdate that is not
    29 February, [days_to_birthdate] returns a number between 0 and 365,
    and 0 exactly when the month and the day of the clock are those of the
    birthdate. *)
Theorem days_to_birthdate_midnight_range r b bday ty tm td :
  birthdate r = Some b →
  datetime.strptime (value b) = inr bday →
  ¬ (datetime.month bday = 2 ∧ datetime.day bday = 29) →
  datetime.check_date_fields ty tm td = true →
  ty < datetime.MAXYEAR →
  ∃ n, days_to_birthdate (datetime.mk ty tm td 0 0 0 0) r = inr (PyInt n)
       ∧ 0 ≤ n ≤ 365
       ∧ (n = 0 ↔ tm = datetime.month bday ∧ td = datetime.day bday).
Proof. apply days_to_birthdate_at_midnight. Qed.

Lemma days_to_birthdate_midnight_range_witness :
  ∃ n, days_to_birthdate (datetime.mk 2024 3 1 0 0 0 0) (Ex.born "2000-03-07")
       = inr (PyInt n)
       ∧ 0 ≤ n ≤ 365
       ∧ (n = 0 ↔ 3 = 3 ∧ 1 = 7).
Proof.
  apply (days_to_birthdate_midnight_range (Ex.born "2000-03-07")
           {| oid := 31; value := "2000-03-07" |}
           (datetime.mk 2000 3 7 0 0 0 0) 2024 3 1).
  - reflexivity.
  - reflexivity.
  - simpl. intros [H _]. discriminate H.
  - reflexivity.
  - reflexivity.
Defined.

(** X25.  [validate_phone] accepts a string exactly when it consists of
    nine decimal digits, or of nine decimal digits followed by one line
    feed. *)
Theorem validate_phone_accepts_exactly s :
  validate_phone s = true ↔
  ∃ d, nine_digits d ∧ (s = d ∨ s = (d ++ String Re.newline EmptyString)%string).
Proof. apply validate_phone_spec. Qed.
